(** * parse_wrapped.py: signal-exchange classification, metadata extraction
      and wrapper synthesis

    A shallow embedding of [testcases/testcase1/models/parse_wrapped.py].

    - Python strings are modelled as [string] (byte strings).  The only
      characters the program tests for or rewrites are ASCII (the dot, the
      underscore, the double quote, the three markers), so a UTF-8 reading of
      the document gives the same splits and replacements.
    - A Python [dict] is an insertion-ordered association list ([dict]).
    - An [xml.etree.ElementTree] element is an [Element]: tag, attribute
      dictionary, children.
    - Exceptions are the constructors of [exn]; a function that may raise
      returns a [result]; a function that also mutates one of its arguments
      is a state transformer [M S A].
    - [float()] and the formatting of a float are builtins of the
      interpreter: the development is parametric in them ([PyFloat]). *)

From Stdlib Require Import String Ascii List Bool Arith Lia.
Import ListNotations.

Local Open Scope list_scope.
Local Open Scope string_scope.

Set Implicit Arguments.

(* ================================================================= *)
(** ** Characters and string primitives *)

Definition dquote : ascii := "034"%char.
Definition dot : ascii := "."%char.
Definition underscore : ascii := "_"%char.
Definition tab : ascii := "009"%char.
Definition newline : ascii := "010"%char.

Definition str (c : ascii) : string := String c EmptyString.

(** [x.startswith(p)], used to define [sub in s]. *)
Fixpoint startswith (p s : string) : bool :=
  match p, s with
  | EmptyString, _ => true
  | String a p', String b s' => Ascii.eqb a b && startswith p' s'
  | String _ _, EmptyString => false
  end.

(** [sub in s] on strings. *)
Fixpoint contains (sub s : string) : bool :=
  startswith sub s ||
  match s with
  | EmptyString => false
  | String _ s' => contains sub s'
  end.

(** [s.split(sep)] for a one-character separator (both separators of the
    program, the dot and the double quote, are). *)
Fixpoint split (sep : ascii) (s : string) : list string :=
  match s with
  | EmptyString => [EmptyString]
  | String c s' =>
      if Ascii.eqb c sep then EmptyString :: split sep s'
      else match split sep s' with
           | [] => [str c]
           | x :: xs => String c x :: xs
           end
  end.

(** [sep.join(l)]. *)
Definition join (sep : string) (l : list string) : string := String.concat sep l.

(** [s.replace(a, b)] for one-character [a] and [b]. *)
Fixpoint replace (a b : ascii) (s : string) : string :=
  match s with
  | EmptyString => EmptyString
  | String c s' => String (if Ascii.eqb c a then b else c) (replace a b s')
  end.

(** [l[-1]] on a list of strings that is never empty ([split] results). *)
Definition last_item (l : list string) : string := last l EmptyString.

(** [l[:-1]]. *)
Definition but_last (l : list string) : list string := removelast l.

(** The number of positions of [s] at which [sub] starts. *)
Fixpoint count_sub (sub s : string) : nat :=
  (if startswith sub s then 1 else 0) +
  match s with
  | EmptyString => 0
  | String _ s' => count_sub sub s'
  end.

(* ================================================================= *)
(** ** Exceptions and results *)

Inductive exn : Type :=
| StopIteration   (* next() on an exhausted iterator *)
| AttributeError  (* attribute access on None *)
| KeyError        (* d[k] with k absent *)
| IndexError      (* l[i] out of range *)
| ValueError      (* float() on a bad literal; unknown style *)
| TypeError       (* [sub in None] *)
| RecursionError. (* interpreter recursion depth exhausted *)

Inductive result (A : Type) : Type :=
| Ok (a : A)
| Raise (e : exn).
Arguments Ok {A} a.
Arguments Raise {A} e.

Definition rbind {A B} (r : result A) (k : A -> result B) : result B :=
  match r with
  | Ok a => k a
  | Raise e => Raise e
  end.

Declare Scope py_scope.
Delimit Scope py_scope with py.
Notation "x <- c ;; k" := (rbind c (fun x => k))
  (at level 61, c at next level, right associativity) : py_scope.

(** [l[i]]: IndexError when out of range. *)
Definition item {A} (l : list A) (i : nat) : result A :=
  match nth_error l i with
  | Some a => Ok a
  | None => Raise IndexError
  end.

(** The names the specification gives to the failures. *)
Definition MissingNodeError (e : exn) : Prop := e = StopIteration.
Definition MalformedAttributeError (e : exn) : Prop :=
  e = IndexError \/ e = ValueError.
Definition InvalidRoleError (e : exn) : Prop := e = ValueError.

(** A computation that reads and updates a mutable argument of type [S] and
    may raise: the final state is kept also when it raises. *)
Definition M (S A : Type) : Type := S -> S * result A.

Definition mret {S A} (a : A) : M S A := fun s => (s, Ok a).

Definition mbind {S A B} (m : M S A) (k : A -> M S B) : M S B :=
  fun s => match m s with
           | (s', Ok a) => k a s'
           | (s', Raise e) => (s', Raise e)
           end.

Definition lift {S A} (r : result A) : M S A := fun s => (s, r).
Definition modify {S} (f : S -> S) : M S unit := fun s => (f s, Ok tt).

(** Run a computation on the first or second component of a pair. *)
Definition on_fst {S T A} (m : M S A) : M (S * T) A :=
  fun st => let '(s', r) := m (fst st) in ((s', snd st), r).
Definition on_snd {S T A} (m : M T A) : M (S * T) A :=
  fun st => let '(t', r) := m (snd st) in ((fst st, t'), r).

Declare Scope pym_scope.
Delimit Scope pym_scope with pym.
Notation "x <- c ;; k" := (mbind c (fun x => k))
  (at level 61, c at next level, right associativity) : pym_scope.
Notation "c ;; k" := (mbind c (fun _ => k))
  (at level 61, right associativity) : pym_scope.

(* ================================================================= *)
(** ** Dictionaries *)

Definition dict (V : Type) : Type := list (string * V).

Fixpoint dict_get {V} (k : string) (d : dict V) : option V :=
  match d with
  | [] => None
  | (k', v) :: d' => if String.eqb k' k then Some v else dict_get k d'
  end.

(** [d[k] = v]: an existing key keeps its position, a new key goes last. *)
Fixpoint dict_set {V} (k : string) (v : V) (d : dict V) : dict V :=
  match d with
  | [] => [(k, v)]
  | (k', v') :: d' =>
      if String.eqb k' k then (k, v) :: d' else (k', v') :: dict_set k v d'
  end.

Definition keys {V} (d : dict V) : list string := map fst d.

Definition dict_mem {V} (k : string) (d : dict V) : bool :=
  match dict_get k d with Some _ => true | None => false end.

(** [d[k]]: KeyError when absent. *)
Definition dict_item {V} (d : dict V) (k : string) : result V :=
  match dict_get k d with
  | Some v => Ok v
  | None => Raise KeyError
  end.

(* ================================================================= *)
(** ** Element trees *)

#[warnings="-register-all"]
Inductive Element : Type :=
| Elem (tag : string) (attrib : dict string) (children : list Element).

Definition tag (e : Element) : string := let '(Elem t _ _) := e in t.
Definition attrib (e : Element) : dict string := let '(Elem _ a _) := e in a.
Definition children (e : Element) : list Element := let '(Elem _ _ c) := e in c.

(** [e.iter()]: the element and all its descendants, document order. *)
Fixpoint iter (e : Element) : list Element :=
  match e with
  | Elem _ _ cs => e :: flat_map iter cs
  end.

(** [e.iter(t)]. *)
Definition iter_tag (t : string) (e : Element) : list Element :=
  filter (fun x => String.eqb (tag x) t) (iter e).

(** [e.find(t)] for a plain tag: the first child with that tag, or None. *)
Definition find_child (t : string) (e : Element) : option Element :=
  find (fun c => String.eqb (tag c) t) (children e).

(** [e.get(k)]. *)
Definition get (k : string) (e : Element) : option string :=
  dict_get k (attrib e).

(** [x.attrib.get("name", "")]. *)
Definition name_or_empty (x : Element) : string :=
  match dict_get "name" (attrib x) with
  | Some n => n
  | None => ""
  end.

(** [next(filter(lambda x: x.attrib.get("name", "") == var,
                 tree.getroot().iter()))]. *)
Definition first_named (tree : Element) (var : string) : result Element :=
  match find (fun x => String.eqb (name_or_empty x) var) (iter tree) with
  | Some n => Ok n
  | None => Raise StopIteration
  end.

(** [opt.find(t)] where [opt] is the result of an earlier [find]. *)
Definition find_in (t : string) (o : option Element) : result (option Element) :=
  match o with
  | Some e => Ok (find_child t e)
  | None => Raise AttributeError
  end.

(** [opt.attrib["string"]]. *)
Definition attrib_string (o : option Element) : result string :=
  match o with
  | Some e => dict_item (attrib e) "string"
  | None => Raise AttributeError
  end.

(** [node.find(a).find(b).attrib["string"]]. *)
Definition grandchild_string (a b : string) (node : Element) : result string :=
  (o <- find_in b (find_child a node) ;; attrib_string o)%py.

(* ================================================================= *)
(** ** The program *)

Definition READ : nat := 0.
Definition OVERWRITE : nat := 1.
Definition KPI : nat := 2.

(** The interpreter's [float(s)] (ValueError when [s] is no float literal)
    and the text a float is formatted to by [str.format]. *)
Class PyFloat (float : Type) : Type := {
  float_of_string : string -> option float;
  float_repr : float -> string
}.

(** [float(s)]. *)
Definition to_float {float : Type} `{PyFloat float} (s : string) : result float :=
  match float_of_string s with
  | Some f => Ok f
  | None => Raise ValueError
  end.

(** ['{0}'.format(x)] for [x] a float or None. *)
Definition format_bound {float : Type} `{PyFloat float} (x : option float) : string :=
  match x with
  | Some f => float_repr f
  | None => "None"
  end.

(** [_make_var_name(block, style, description='', attribute='')]. *)
Definition _make_var_name (block style description attribute : string)
  : result string :=
  let name := replace dot underscore block in
  let description :=
    if String.eqb description "" then ""
    else " " ++ str dquote ++ description ++ str dquote in
  if String.eqb style "input_signal" then
    Ok (name ++ "_u" ++ attribute ++ description)
  else if String.eqb style "input_activate" then
    Ok (name ++ "_activate" ++ description)
  else if String.eqb style "output" then
    Ok (name ++ "_y" ++ attribute ++ description)
  else Raise ValueError.

(** ['.'.join(instance.split('.')[:-1])]. *)
Definition basename_of (instance : string) : string :=
  join "." (but_last (split dot instance)).

(** [_get_final_value(tree, var)].  [depth] is the number of nested calls
    the interpreter still allows; at zero the call raises RecursionError. *)
Fixpoint _get_final_value (depth : nat) (tree : Element) (var : string)
  : result string :=
  match depth with
  | 0 => Raise RecursionError
  | S depth' =>
      (node <- first_named tree var ;;
       s <- attrib_string (find_child "bindExpression" node) ;;
       if contains (str dquote) s then item (split dquote s) 1
       else _get_final_value depth' tree s)%py
  end.

Section Extraction.
Context {float : Type} `{PyFloat float}.

Record InstanceRecord : Type := {
  Unit : string;
  Description : string;
  Minimum : option float;
  Maximum : option float
}.

(** [{'Overwrite': {...}, 'Read': {...}}]. *)
Record Instances : Type := {
  Overwrite : dict InstanceRecord;
  Read : dict InstanceRecord
}.

Definition Signals : Type := dict (list string).

Definition empty_instances : Instances := {| Overwrite := []; Read := [] |}.

(** [instances[label]] and [instances[label][k] = r] for the two labels. *)
Definition instances_at (label : string) (i : Instances) : dict InstanceRecord :=
  if String.eqb label "Read" then Read i else Overwrite i.

Definition set_instance (label k : string) (r : InstanceRecord) (i : Instances)
  : Instances :=
  if String.eqb label "Read"
  then {| Overwrite := Overwrite i; Read := dict_set k r (Read i) |}
  else {| Overwrite := dict_set k r (Overwrite i); Read := Read i |}.

(** [_process_readwrite(tree, instance, instances, flag)]. *)
Definition _process_readwrite (tree : Element) (instance : string) (flag : nat)
  : M Instances unit :=
  let label := if Nat.eqb flag READ then "Read" else "Overwrite" in
  let basename := basename_of instance in
  let signal_suffix := if Nat.eqb flag READ then ".y" else ".u" in
  (node <- lift (first_named tree (basename ++ signal_suffix)) ;;
   unit <- lift (s <- grandchild_string "attributesValues" "unit" node ;;
                 item (split dquote s) 1)%py ;;
   dnode <- lift (first_named tree (basename ++ ".description")) ;;
   description <- lift (s <- attrib_string (find_child "bindExpression" dnode) ;;
                        item (split dquote s) 1)%py ;;
   bounds <- lift (if Nat.eqb flag READ then Ok (None, None)
                   else (s1 <- grandchild_string "attributesValues" "minValue" node ;;
                         mini <- to_float s1 ;;
                         s2 <- grandchild_string "attributesValues" "maxValue" node ;;
                         maxi <- to_float s2 ;;
                         Ok (Some mini, Some maxi))%py) ;;
   modify (set_instance label basename
             {| Unit := unit; Description := description;
                Minimum := fst bounds; Maximum := snd bounds |}))%pym.

Definition zone_types : list string :=
  ["AirZoneTemperature"; "RadiativeZoneTemperature";
   "OperativeZoneTemperature"; "RelativeHumidity"; "CO2Concentration"].

(** [_process_KPI(tree, var, signals, instance)]. *)
Definition _process_KPI (depth : nat) (tree var : Element) (instance : string)
  : M Signals unit :=
  (s <- lift (attrib_string (find_child "bindExpression" var)) ;;
   let signal_type := last_item (split dot s) in
   let basename := basename_of instance in
   signal_type <- lift (if existsb (String.eqb signal_type) zone_types
                        then (z <- _get_final_value depth tree (basename ++ ".zone") ;;
                              Ok (signal_type ++ "[" ++ z ++ "]"))%py
                        else Ok signal_type) ;;
   v <- lift (_make_var_name basename "output" "" "") ;;
   modify (fun signals : Signals =>
             match dict_get signal_type signals with
             | Some l => dict_set signal_type (l ++ [v])%list signals
             | None => dict_set signal_type [v] signals
             end))%pym.

(** The [for] loop over a list whose body may raise. *)
Fixpoint for_each {S A} (body : A -> M S unit) (l : list A) : M S unit :=
  match l with
  | [] => mret tt
  | a :: l' => (body a ;; for_each body l')%pym
  end.

(** The marker tests of [parse_XML]: [flag] after the if/elif chain. *)
Definition flag_of (name : string) : option nat :=
  if contains "boptestRead" name then Some READ
  else if contains "boptestOverwrite" name then Some OVERWRITE
  else if contains "KPIs" name then Some KPI
  else None.

(** The body of the loop of [parse_XML]. *)
Definition parse_var (depth : nat) (tree var : Element)
  : M (Instances * Signals) unit :=
  match get "name" var with
  | None => lift (Raise TypeError)
  | Some name =>
      match flag_of name with
      | None => mret tt
      | Some flag =>
          if Nat.eqb flag KPI
          then on_snd (_process_KPI depth tree var name)
          else on_fst (_process_readwrite tree name flag)
      end
  end.

(** [parse_XML(path)], from the parsed document's root element. *)
Definition parse_XML_state (depth : nat) (tree : Element)
  : (Instances * Signals) * result unit :=
  for_each (parse_var depth tree) (iter_tag "variable" tree)
           (empty_instances, []).

Definition parse_XML (depth : nat) (tree : Element)
  : result (Instances * Signals) :=
  match parse_XML_state depth tree with
  | (st, Ok _) => Ok st
  | (_, Raise e) => Raise e
  end.

End Extraction.

Arguments InstanceRecord : clear implicits.
Arguments Instances : clear implicits.


Section Synthesis.
Context {float : Type} `{PyFloat float}.

(** The local variables of [create_wrapper] that its loops update. *)
Record locals : Type := {
  model_code : list string;
  input_signals_w_info : dict string;
  input_signals_wo_info : dict string;
  input_activate_w_info : dict string;
  input_activate_wo_info : dict string
}.

(** [model_code.append(s)]. *)
Definition emit (s : string) (L : locals) : locals :=
  {| model_code := (model_code L ++ [s])%list;
     input_signals_w_info := input_signals_w_info L;
     input_signals_wo_info := input_signals_wo_info L;
     input_activate_w_info := input_activate_w_info L;
     input_activate_wo_info := input_activate_wo_info L |}.

Definition set_signals_w (k v : string) (L : locals) : locals :=
  {| model_code := model_code L;
     input_signals_w_info := dict_set k v (input_signals_w_info L);
     input_signals_wo_info := input_signals_wo_info L;
     input_activate_w_info := input_activate_w_info L;
     input_activate_wo_info := input_activate_wo_info L |}.

Definition set_signals_wo (k v : string) (L : locals) : locals :=
  {| model_code := model_code L;
     input_signals_w_info := input_signals_w_info L;
     input_signals_wo_info := dict_set k v (input_signals_wo_info L);
     input_activate_w_info := input_activate_w_info L;
     input_activate_wo_info := input_activate_wo_info L |}.

Definition set_activate_w (k v : string) (L : locals) : locals :=
  {| model_code := model_code L;
     input_signals_w_info := input_signals_w_info L;
     input_signals_wo_info := input_signals_wo_info L;
     input_activate_w_info := dict_set k v (input_activate_w_info L);
     input_activate_wo_info := input_activate_wo_info L |}.

Definition set_activate_wo (k v : string) (L : locals) : locals :=
  {| model_code := model_code L;
     input_signals_w_info := input_signals_w_info L;
     input_signals_wo_info := input_signals_wo_info L;
     input_activate_w_info := input_activate_w_info L;
     input_activate_wo_info := dict_set k v (input_activate_wo_info L) |}.

(** A [for] loop whose body updates the locals and may raise. *)
Fixpoint rfold {A S} (body : A -> S -> result S) (l : list A) (s : S)
  : result S :=
  match l with
  | [] => Ok s
  | a :: l' => (s' <- body a s ;; rfold body l' s')%py
  end.

(** [enumerate(l)]. *)
Definition enumerate {A} (l : list A) : list (nat * A) :=
  combine (seq 0 (length l)) l.

Definition q : string := str dquote.
Definition nl : string := str newline.
Definition tb : string := str tab.

Definition no_blocks_warning : string :=
  "No signal exchange block instances found in model.  Exporting model as is.".

(** Body of [for block in instances['Overwrite'].keys()]. *)
Definition declare_input (instances : Instances float) (block : string) (L : locals)
  : result locals :=
  (r <- dict_item (Overwrite instances) block ;;
   w <- _make_var_name block "input_signal" (Description r)
          ("(unit=" ++ q ++ Unit r ++ q ++ ", min=" ++ format_bound (Minimum r)
           ++ ", max=" ++ format_bound (Maximum r) ++ ")") ;;
   let L := set_signals_w block w L in
   wo <- _make_var_name block "input_signal" "" "" ;;
   let L := set_signals_wo block wo L in
   a <- _make_var_name block "input_activate"
          ("Activation for " ++ Description r) "" ;;
   let L := set_activate_w block a L in
   ao <- _make_var_name block "input_activate" "" "" ;;
   let L := set_activate_wo block ao L in
   x <- dict_item (input_signals_w_info L) block ;;
   let L := emit (tb ++ "Modelica.Blocks.Interfaces.RealInput " ++ x ++ ";" ++ nl) L in
   y <- dict_item (input_activate_w_info L) block ;;
   Ok (emit (tb ++ "Modelica.Blocks.Interfaces.BooleanInput " ++ y ++ ";" ++ nl) L))%py.

(** Body of [for block in instances[i].keys()]. *)
Definition declare_output (instances : Instances float) (i block : string) (L : locals)
  : result locals :=
  (r <- dict_item (instances_at i instances) block ;;
   v <- _make_var_name block "output" ""
          ("(unit=" ++ q ++ Unit r ++ q ++ ")") ;;
   Ok (emit (tb ++ "Modelica.Blocks.Interfaces.RealOutput " ++ v ++ " = mod."
             ++ block ++ ".y " ++ q ++ Description r ++ q ++ ";" ++ nl) L))%py.

(** Body of [for i, block in enumerate(instances['Overwrite'])]. *)
Definition connect (instances : Instances float) (ib : nat * string) (L : locals)
  : result locals :=
  let '(i, block) := ib in
  (u <- dict_item (input_signals_wo_info L) block ;;
   a <- dict_item (input_activate_wo_info L) block ;;
   let L := emit (tb ++ tb ++ block ++ "(uExt(y=" ++ u ++ "),activate(y=" ++ a ++ "))") L in
   if Nat.eqb i (length (Overwrite instances) - 1)
   then Ok (emit (") " ++ q ++ "Original model with overwrites" ++ q ++ ";" ++ nl) L)
   else Ok (emit ("," ++ nl) L))%py.

(** [create_wrapper(model_path, instances)]: the warnings issued, and the
    text returned ([None] when there is nothing to wrap). *)
Definition create_wrapper (model_path : string) (instances : Instances float)
  : list string * result (option string) :=
  let len_write_blocks := length (Overwrite instances) in
  let len_read_blocks := length (Read instances) in
  if Nat.eqb (len_write_blocks + len_read_blocks) 0 then
    ([no_blocks_warning], Ok None)
  else
    ([],
     let model_name := "wrapped" in
     let L := {| model_code :=
                   ["model " ++ model_name ++ " " ++ q ++ "Wrapped model of "
                    ++ model_path ++ q ++ nl ++ tb ++ "// Input overwrite" ++ nl];
                 input_signals_w_info := [];
                 input_signals_wo_info := [];
                 input_activate_w_info := [];
                 input_activate_wo_info := [] |} in
     (L <- rfold (declare_input instances) (keys (Overwrite instances)) L ;;
      let L := emit (tb ++ "// Out read" ++ nl) L in
      L <- rfold (fun i => rfold (declare_output instances i)
                                 (keys (instances_at i instances)))
                 ["Read"; "Overwrite"] L ;;
      let L := emit (tb ++ "// Original model" ++ nl) L in
      let L := emit (tb ++ model_path ++ " mod(" ++ nl) L in
      L <- (if Nat.eqb len_write_blocks 0
            then Ok (emit (") " ++ q ++ "Original model without overwrites" ++ q
                           ++ ";" ++ nl) L)
            else rfold (connect instances)
                       (enumerate (keys (Overwrite instances))) L) ;;
      let L := emit ("end " ++ model_name ++ ";" ++ nl) L in
      Ok (Some (join "" (model_code L))))%py).

End Synthesis.

(** The command line of the script: [args.inputfile], and [args.output],
    [args.model] and [args.json], each None when the option is not given. *)
Record Args : Type := {
  inputfile : string;
  output : option string;
  model : option string;
  json : option string
}.

(** What the script does to the outside, in order. *)
Inductive event : Type :=
| Warn (msg : string)                          (* warnings.warn(msg) *)
| Stdout (text : string)                       (* print(x): text, then a newline *)
| FileOpen (path : string)                     (* open(path, 'w'): created or emptied *)
| FileWrite (path text : string)               (* fh.write(text), flushed at close *)
| JsonDump (path : string) (signals : dict (list string)). (* json.dump(signals, fh) *)

(** How the script ends: normally, with an exception of the program, with
    the exception of [ET.parse] on an input file that cannot be read or is
    not well-formed (OSError, ParseError), or with the OSError of an output
    call that failed. *)
Inductive outcome : Type :=
| Done
| Raised (e : exn)
| InputFailed (path : string)
| IOFailed (a : event).

(** The input/output calls [actions] in order, then [k]; [io_ok] tells of
    each call whether the system lets it succeed.  The first call that
    fails ends the script with its OSError: nothing of it and nothing
    after it happens. *)
Fixpoint attempt (io_ok : event -> bool) (actions : list event)
         (k : list event * outcome) : list event * outcome :=
  match actions with
  | [] => k
  | a :: rest =>
      if io_ok a
      then let '(ev, o) := attempt io_ok rest k in (a :: ev, o)
      else ([], IOFailed a)
  end.

(** The script body, after [parse_args].  [read path] is what
    [ET.parse(path)] gives: the root element of the document, or None when
    it raises.  [create_wrapper] uses [model_path] only as an argument of
    [str.format], so a missing [-m] option (None) is the text [None];
    [print(None)] prints the same text; [fh.write(None)] raises TypeError,
    after the file was opened. *)
Definition main {float : Type} `{PyFloat float}
           (read : string -> option Element) (io_ok : event -> bool)
           (depth : nat) (args : Args) : list event * outcome :=
  match read (inputfile args) with
  | None => ([], InputFailed (inputfile args))
  | Some tree =>
  match parse_XML depth tree with
  | Raise e => ([], Raised e)
  | Ok (instances, signal_types) =>
      let model_path := match model args with Some m => m | None => "None" end in
      match create_wrapper model_path instances with
      | (warnings, Raise e) => (map Warn warnings, Raised e)
      | (warnings, Ok wrapper_code) =>
          let dump :=
            match json args with
            | None => ([], Done)
            | Some path =>
                attempt io_ok [FileOpen path; JsonDump path signal_types]
                        ([], Done)
            end in
          let '(ev, o) :=
            match output args, wrapper_code with
            | None, Some text => attempt io_ok [Stdout text] dump
            | None, None => attempt io_ok [Stdout "None"] dump
            | Some path, Some text =>
                attempt io_ok [FileOpen path; FileWrite path text] dump
            | Some path, None =>
                attempt io_ok [FileOpen path] ([], Raised TypeError)
            end in
          ((map Warn warnings ++ ev)%list, o)
      end
  end
  end.

(* ================================================================= *)
(** ** A small instance of the float builtins

    Unsigned decimal literals [digits.digits] with at most nine integer and
    four fractional digits, kept as their canonical text: no redundant
    leading zero, no redundant trailing zero, at least one digit on each
    side of the point.  On these literals the text is what the interpreter
    prints for the parsed float.  It serves to run the program on concrete
    documents; every general theorem below is stated for an arbitrary
    [PyFloat]. *)

Module DecFloat.

Definition is_digit (c : ascii) : bool :=
  let n := nat_of_ascii c in (48 <=? n)%nat && (n <=? 57)%nat.

Fixpoint all_digits (s : string) : bool :=
  match s with
  | EmptyString => true
  | String c s' => is_digit c && all_digits s'
  end.

Fixpoint strip_leading_zeros (s : string) : string :=
  match s with
  | String c (String _ _ as s') =>
      if Ascii.eqb c "0" then strip_leading_zeros s' else s
  | _ => s
  end.

Fixpoint strip_trailing_zeros (s : string) : string :=
  match s with
  | EmptyString => EmptyString
  | String c s' =>
      match strip_trailing_zeros s' with
      | EmptyString => if Ascii.eqb c "0" then EmptyString else str c
      | r => String c r
      end
  end.

Definition parse (s : string) : option string :=
  match split dot s with
  | [i; f] =>
      if all_digits i && all_digits f
         && (1 <=? String.length i)%nat && (String.length i <=? 9)%nat
         && (1 <=? String.length f)%nat && (String.length f <=? 4)%nat
      then Some (strip_leading_zeros i ++ "." ++
                 match strip_trailing_zeros f with
                 | EmptyString => "0"
                 | r => r
                 end)
      else None
  | _ => None
  end.

Definition ops : PyFloat string :=
  {| float_of_string := parse; float_repr := fun f => f |}.

End DecFloat.

(* ================================================================= *)
(** ** Vocabulary of the statements *)

(** [sub] occurs in [s]. *)
Definition occurs_in (sub s : string) : Prop :=
  exists a b, s = a ++ sub ++ b.

(** [r] is the part of [s] between its first two double quotes. *)
Definition between_first_quotes (s r : string) : Prop :=
  exists a b, s = a ++ q ++ r ++ q ++ b /\
              contains q a = false /\ contains q r = false.

(** [r] is what follows the first double quote of [s], up to the next
    double quote or, when there is none, to the end of [s]. *)
Definition after_first_quote (s r : string) : Prop :=
  exists a, contains q a = false /\ contains q r = false /\
            (s = a ++ q ++ r \/ exists b, s = a ++ q ++ r ++ q ++ b).

(** No element of the tree is named [var]. *)
Definition no_node_named (tree : Element) (var : string) : Prop :=
  forall x, In x (iter tree) -> name_or_empty x <> var.

(** The alias chain that starts at [var]: the names looked up, in order,
    and the quote-containing string it ends in. *)
Inductive alias_chain (tree : Element) : string -> list string -> string -> Prop :=
| chain_literal var node s :
    first_named tree var = Ok node ->
    attrib_string (find_child "bindExpression" node) = Ok s ->
    contains q s = true ->
    alias_chain tree var [var] s
| chain_alias var node s names final :
    first_named tree var = Ok node ->
    attrib_string (find_child "bindExpression" node) = Ok s ->
    contains q s = false ->
    alias_chain tree s names final ->
    alias_chain tree var (var :: names) final.

(** The entry of [k] after [v] has been appended to its list. *)
Definition appended (k v : string) (old new : dict (list string)) : Prop :=
  dict_get k new = Some (match dict_get k old with
                         | Some l => l ++ [v]
                         | None => [v]
                         end)%list /\
  (forall k', k' <> k -> dict_get k' new = dict_get k' old) /\
  keys new = (if dict_mem k old then keys old else keys old ++ [k])%list.

(** The computation raises an exception of kind [P] and leaves the
    state [s] it was started in. *)
Definition fails_with {S A} (P : exn -> Prop) (out : S * result A) (s : S)
  : Prop :=
  exists e, out = (s, Raise e) /\ P e.

(** The map and the companion suffix [_process_readwrite] selects. *)
Definition label_of (flag : nat) : string :=
  if Nat.eqb flag READ then "Read" else "Overwrite".

Definition suffix_of (flag : nat) : string :=
  if Nat.eqb flag READ then ".y" else ".u".

(** The reads of [_process_readwrite], up to its one assignment: the record
    it is about to store. *)
Definition record_read {float : Type} `{PyFloat float} (tree : Element) (instance : string)
           (flag : nat) : result (InstanceRecord float) :=
  let basename := basename_of instance in
  let signal_suffix := if Nat.eqb flag READ then ".y" else ".u" in
  (node <- first_named tree (basename ++ signal_suffix) ;;
   su <- grandchild_string "attributesValues" "unit" node ;;
   unit <- item (split dquote su) 1 ;;
   dnode <- first_named tree (basename ++ ".description") ;;
   sd <- attrib_string (find_child "bindExpression" dnode) ;;
   description <- item (split dquote sd) 1 ;;
   bounds <- (if Nat.eqb flag READ then Ok (None, None)
              else (s1 <- grandchild_string "attributesValues" "minValue" node ;;
                    mini <- to_float s1 ;;
                    s2 <- grandchild_string "attributesValues" "maxValue" node ;;
                    maxi <- to_float s2 ;;
                    Ok (Some mini, Some maxi))) ;;
   Ok {| Unit := unit; Description := description;
         Minimum := fst bounds; Maximum := snd bounds |})%py.

(** Both plain names of block [k] have been recorded, and the text so far
    extends [code]. *)
Definition covered (k : string) (L : locals) : Prop :=
  dict_mem k (input_signals_wo_info L) = true /\
  dict_mem k (input_activate_wo_info L) = true.

Definition extends (code : list string) (L : locals) : Prop :=
  exists more, model_code L = (code ++ more)%list.

(** The basenames of the named elements of [vars] whose name passes
    [test], in order; and a list of keys without its repetitions, each key
    at its first place. *)
Definition marked_basenames (test : string -> bool) (vars : list Element)
  : list string :=
  flat_map (fun var => match get "name" var with
                       | Some name => if test name then [basename_of name] else []
                       | None => []
                       end) vars.

Definition add_key (acc : list string) (k : string) : list string :=
  if existsb (String.eqb k) acc then acc else (acc ++ [k])%list.

Definition first_seen (ks : list string) : list string :=
  fold_left add_key ks [].

Definition is_read (name : string) : bool := contains "boptestRead" name.
Definition is_overwrite (name : string) : bool :=
  negb (contains "boptestRead" name) && contains "boptestOverwrite" name.

(** The plain names recorded for the blocks are the mangled ones. *)
Definition named (L : locals) : Prop :=
  (forall k v, dict_get k (input_signals_wo_info L) = Some v ->
               v = replace dot underscore k ++ "_u") /\
  (forall k v, dict_get k (input_activate_wo_info L) = Some v ->
               v = replace dot underscore k ++ "_activate").

(** The text emitted so far. *)
Definition text_of (L : locals) : string := join "" (model_code L).

(** [n] alias hops lead from [var] to [target]: each node on the way has a
    bindExpression string without a double quote, the next name. *)
Inductive alias_path (tree : Element) : string -> nat -> string -> Prop :=
| path_here var : alias_path tree var 0 var
| path_hop var node s n target :
    first_named tree var = Ok node ->
    attrib_string (find_child "bindExpression" node) = Ok s ->
    contains q s = false ->
    alias_path tree s n target ->
    alias_path tree var (S n) target.

(** The classification of a variable name, as a proposition. *)
Definition read_marked (name : string) : Prop := occurs_in "boptestRead" name.
Definition overwrite_marked (name : string) : Prop :=
  ~ occurs_in "boptestRead" name /\ occurs_in "boptestOverwrite" name.
Definition kpi_marked (name : string) : Prop :=
  ~ occurs_in "boptestRead" name /\ ~ occurs_in "boptestOverwrite" name /\
  occurs_in "KPIs" name.

(** Some element of [vars] has a name with property [P] and the basename
    [k]; [from_variable]: some variable element of the tree has. *)
Definition from_vars (vars : list Element) (P : string -> Prop) (k : string)
  : Prop :=
  exists var name,
    In var vars /\ get "name" var = Some name /\
    P name /\ basename_of name = k.

Definition from_variable (tree : Element) (P : string -> Prop) (k : string)
  : Prop :=
  from_vars (iter_tag "variable" tree) P k.

(** Read records carry no bounds, Overwrite records carry both. *)
Definition bounds_by_map {float : Type} (instances : Instances float) : Prop :=
  (forall k r, dict_get k (Read instances) = Some r ->
               Minimum r = None /\ Maximum r = None) /\
  (forall k r, dict_get k (Overwrite instances) = Some r ->
               Minimum r <> None /\ Maximum r <> None).

(** The identifier [v] stands in some group. *)
Definition listed (v : string) (signals : dict (list string)) : Prop :=
  exists k l, dict_get k signals = Some l /\ In v l.

(** Every group is a non-empty list of output identifiers of KPI-marked
    elements of [vars]. *)
Definition groups_from (vars : list Element) (signals : dict (list string))
  : Prop :=
  forall k l, dict_get k signals = Some l ->
              l <> [] /\
              forall v, In v l ->
                        exists b, from_vars vars kpi_marked b /\
                                  v = replace dot underscore b ++ "_y".

(** The wrapper text, piece by piece. *)
Definition quoted_clause (d : string) : string :=
  if String.eqb d "" then "" else " " ++ q ++ d ++ q.

Definition input_declarations {float : Type} `{PyFloat float}
           (entry : string * InstanceRecord float) : string :=
  let '(k, r) := entry in
  tb ++ "Modelica.Blocks.Interfaces.RealInput " ++ replace dot underscore k
  ++ "_u(unit=" ++ q ++ Unit r ++ q ++ ", min=" ++ format_bound (Minimum r)
  ++ ", max=" ++ format_bound (Maximum r) ++ ")"
  ++ quoted_clause (Description r) ++ ";" ++ nl
  ++ tb ++ "Modelica.Blocks.Interfaces.BooleanInput " ++ replace dot underscore k
  ++ "_activate " ++ q ++ "Activation for " ++ Description r ++ q ++ ";" ++ nl.

Definition output_declaration {float : Type}
           (entry : string * InstanceRecord float) : string :=
  let '(k, r) := entry in
  tb ++ "Modelica.Blocks.Interfaces.RealOutput " ++ replace dot underscore k
  ++ "_y(unit=" ++ q ++ Unit r ++ q ++ ") = mod." ++ k ++ ".y " ++ q
  ++ Description r ++ q ++ ";" ++ nl.

Definition connection (k : string) : string :=
  tb ++ tb ++ k ++ "(uExt(y=" ++ replace dot underscore k
  ++ "_u),activate(y=" ++ replace dot underscore k ++ "_activate))".

Definition wrapper_text {float : Type} `{PyFloat float} (model_path : string)
           (instances : Instances float) : string :=
  "model wrapped " ++ q ++ "Wrapped model of " ++ model_path ++ q ++ nl
  ++ tb ++ "// Input overwrite" ++ nl
  ++ join "" (map input_declarations (Overwrite instances))
  ++ tb ++ "// Out read" ++ nl
  ++ join "" (map output_declaration (Read instances))
  ++ join "" (map output_declaration (Overwrite instances))
  ++ tb ++ "// Original model" ++ nl
  ++ tb ++ model_path ++ " mod(" ++ nl
  ++ join ("," ++ nl) (map connection (keys (Overwrite instances)))
  ++ ") " ++ q
  ++ match Overwrite instances with
     | [] => "Original model without overwrites"
     | _ :: _ => "Original model with overwrites"
     end
  ++ q ++ ";" ++ nl
  ++ "end wrapped;" ++ nl.

(* ================================================================= *)
(** ** Sample documents *)

Module Samples.

Definition variable (name : string) (cs : list Element) : Element :=
  Elem "variable" [("name", name)] cs.
Definition valued (t s : string) : Element := Elem t [("string", s)] [].
Definition bindExpression (s : string) : Element := valued "bindExpression" s.
Definition attributesValues (cs : list Element) : Element :=
  Elem "attributesValues" [] cs.
Definition quoted (s : string) : string := q ++ s ++ q.
Definition document (vars : list Element) : Element :=
  Elem "dae" []
    [Elem "variables" []
       [Elem "orderedVariables" [] [Elem "variablesList" [] vars]]].

Definition kpi_type (t : string) : string :=
  "Buildings.Utilities.IO.SignalExchange.SignalTypes.SignalsForKPIs." ++ t.

(** An overwrite block, a read block and a zone-scoped KPI whose zone is
    an alias of a literal. *)
Definition plant : Element :=
  document
    [variable "sys.ctrl.boptestOverwrite" [];
     variable "sys.ctrl.u"
       [attributesValues [valued "unit" (quoted "K");
                          valued "minValue" "280.0";
                          valued "maxValue" "320.0"]];
     variable "sys.ctrl.description" [bindExpression (quoted "setpoint")];
     variable "sensor.T.boptestRead" [];
     variable "sensor.T.y" [attributesValues [valued "unit" (quoted "C")]];
     variable "sensor.T.description" [bindExpression (quoted "zone temp")];
     variable "zone1.KPIs" [bindExpression (kpi_type "AirZoneTemperature")];
     variable "zone1.zone" [bindExpression "zone1.building.zoneName"];
     variable "zone1.building.zoneName" [bindExpression "building.name"];
     variable "building.name" [bindExpression (quoted "Core_ZONE")]].

Definition plant_instances : Instances string :=
  {| Overwrite := [("sys.ctrl", {| Unit := "K"; Description := "setpoint";
                                   Minimum := Some "280.0";
                                   Maximum := Some "320.0" |})];
     Read := [("sensor.T", {| Unit := "C"; Description := "zone temp";
                              Minimum := None; Maximum := None |})] |}.

Definition plant_signals : dict (list string) :=
  [("AirZoneTemperature[Core_ZONE]", ["zone1_y"])].

(** A zone literal and a unit with one double quote only. *)
Definition one_quote : Element :=
  document
    [variable "z.zone" [bindExpression ("abc" ++ q ++ "def")];
     variable "s.boptestRead" [];
     variable "s.y" [attributesValues [valued "unit" ("K" ++ q)]];
     variable "s.description" [bindExpression (quoted "temp")]].

(** A unit and a description that are the empty quoted string. *)
Definition empty_quoted : Element :=
  document
    [variable "s.boptestRead" [];
     variable "s.y" [attributesValues [valued "unit" (quoted "")]];
     variable "s.description" [bindExpression (quoted "")]].

(** Two blocks whose paths differ in a dot against an underscore. *)
Definition colliding : Element :=
  document
    [variable "a.b.boptestRead" [];
     variable "a.b.y" [attributesValues [valued "unit" (quoted "C")]];
     variable "a.b.description" [bindExpression (quoted "first")];
     variable "a_b.boptestRead" [];
     variable "a_b.y" [attributesValues [valued "unit" (quoted "C")]];
     variable "a_b.description" [bindExpression (quoted "second")];
     variable "a.b.KPIs" [bindExpression (kpi_type "None")];
     variable "a_b.KPIs" [bindExpression (kpi_type "None")]].

(** Two KPIs of one unscoped category, and a zone that is its own alias. *)
Definition two_kpis : Element :=
  document
    [variable "x.KPIs" [bindExpression (kpi_type "PowerDemand")];
     variable "y.KPIs" [bindExpression (kpi_type "PowerDemand")];
     variable "c.zone" [bindExpression "c.zone"]].

(** A read block, then an overwrite marker without companion nodes, then a
    KPI; and a read block, then a variable element without a name. *)
Definition read_block : list Element :=
  [variable "sensor.T.boptestRead" [];
   variable "sensor.T.y" [attributesValues [valued "unit" (quoted "C")]];
   variable "sensor.T.description" [bindExpression (quoted "zone temp")]].

Definition sensor_read : Instances string * dict (list string) :=
  ({| Overwrite := [];
      Read := [("sensor.T", {| Unit := "C"; Description := "zone temp";
                               Minimum := None; Maximum := None |})] |}, []).

Definition failing : Element :=
  document (read_block ++
            [variable "p.boptestOverwrite" [];
             variable "zone1.KPIs" [bindExpression (kpi_type "PowerDemand")]]).

Definition unnamed : Element :=
  document (read_block ++
            [Elem "variable" [("id", "7")] [];
             variable "x.KPIs" [bindExpression (kpi_type "PowerDemand")]]).

(** A zone whose alias is the empty string. *)
Definition empty_alias : Element :=
  document
    [variable "e.KPIs" [bindExpression (kpi_type "AirZoneTemperature")];
     variable "e.zone" [bindExpression ""]].

(** Two read blocks around an overwrite block, the first read block marked
    twice. *)
Definition interleaved : Element :=
  document
    [variable "b.boptestRead" [];
     variable "b.y" [attributesValues [valued "unit" (quoted "C")]];
     variable "b.description" [bindExpression (quoted "second letter")];
     variable "w.boptestOverwrite" [];
     variable "w.u" [attributesValues [valued "unit" (quoted "K");
                                       valued "minValue" "1.0";
                                       valued "maxValue" "2.0"]];
     variable "w.description" [bindExpression (quoted "valve")];
     variable "a.boptestRead" [];
     variable "a.y" [attributesValues [valued "unit" (quoted "C")]];
     variable "a.description" [bindExpression (quoted "first letter")];
     variable "b.boptestReadAgain" []].

Definition interleaved_instances : Instances string :=
  {| Overwrite := [("w", {| Unit := "K"; Description := "valve";
                            Minimum := Some "1.0"; Maximum := Some "2.0" |})];
     Read := [("b", {| Unit := "C"; Description := "second letter";
                       Minimum := None; Maximum := None |});
              ("a", {| Unit := "C"; Description := "first letter";
                       Minimum := None; Maximum := None |})] |}.

(** A file system that holds the document [tree] at [dae.xml] and nothing
    else. *)
Definition only_file (tree : Element) (path : string) : option Element :=
  if String.eqb path "dae.xml" then Some tree else None.

(** A system on which every output call succeeds, and one without the
    directory [nodir]. *)
Definition all_ok (a : event) : bool := true.

Definition no_directory (a : event) : bool :=
  match a with
  | FileOpen path => negb (startswith "nodir/" path)
  | _ => true
  end.

(** A zone alias that leads into a cycle of two names. *)
Definition cyclic : Element :=
  document
    [variable "k.KPIs" [bindExpression (kpi_type "AirZoneTemperature")];
     variable "k.zone" [bindExpression "m.zone"];
     variable "m.zone" [bindExpression "n.zone"];
     variable "n.zone" [bindExpression "m.zone"]].

(** Defective companions of an overwrite block [p.boptestOverwrite]. *)
Definition overwrite_block (companions : list Element) : Element :=
  document (variable "p.boptestOverwrite" [] :: companions).

Definition signal_node (unit mini maxi : string) : Element :=
  variable "p.u" [attributesValues [valued "unit" unit;
                                    valued "minValue" mini;
                                    valued "maxValue" maxi]].

Definition description_node (s : string) : Element :=
  variable "p.description" [bindExpression s].

(** The wrapper of Scenario A: one overwrite block [sys.ctrl] around the
    model [Plant]. *)
Definition scenario_A_text : string :=
  "model wrapped " ++ q ++ "Wrapped model of Plant" ++ q ++ nl
  ++ tb ++ "// Input overwrite" ++ nl
  ++ tb ++ "Modelica.Blocks.Interfaces.RealInput sys_ctrl_u(unit=" ++ q ++ "K"
  ++ q ++ ", min=280.0, max=320.0) " ++ q ++ "setpoint" ++ q ++ ";" ++ nl
  ++ tb ++ "Modelica.Blocks.Interfaces.BooleanInput sys_ctrl_activate " ++ q
  ++ "Activation for setpoint" ++ q ++ ";" ++ nl
  ++ tb ++ "// Out read" ++ nl
  ++ tb ++ "Modelica.Blocks.Interfaces.RealOutput sys_ctrl_y(unit=" ++ q ++ "K"
  ++ q ++ ") = mod.sys.ctrl.y " ++ q ++ "setpoint" ++ q ++ ";" ++ nl
  ++ tb ++ "// Original model" ++ nl
  ++ tb ++ "Plant mod(" ++ nl
  ++ tb ++ tb ++ "sys.ctrl(uExt(y=sys_ctrl_u),activate(y=sys_ctrl_activate))"
  ++ ") " ++ q ++ "Original model with overwrites" ++ q ++ ";" ++ nl
  ++ "end wrapped;" ++ nl.

End Samples.

(* ================================================================= *)
(** ** Strings *)

Lemma append_empty_r (s : string) : s ++ "" = s.
Proof. induction s; simpl; congruence. Qed.

Lemma append_assoc (a b c : string) : (a ++ b) ++ c = a ++ b ++ c.
Proof. induction a; simpl; congruence. Qed.

Lemma startswith_app (p b : string) : startswith p (p ++ b) = true.
Proof.
  induction p as [|c p IH]; simpl; [reflexivity|].
  now rewrite Ascii.eqb_refl, IH.
Qed.

Lemma startswith_inv (p s : string) :
  startswith p s = true -> exists b, s = p ++ b.
Proof.
  revert s; induction p as [|c p IH]; intros s Hs; simpl in *.
  - now exists s.
  - destruct s as [|d s]; [discriminate|].
    apply andb_true_iff in Hs as [Hc Hp].
    apply Ascii.eqb_eq in Hc; subst d.
    destruct (IH _ Hp) as [b ->]. now exists b.
Qed.

Lemma startswith_contains (sub s : string) :
  startswith sub s = true -> contains sub s = true.
Proof. intros Hs. destruct s; simpl in *; now rewrite Hs. Qed.

Lemma contains_cons (sub s : string) (c : ascii) :
  contains sub s = true -> contains sub (String c s) = true.
Proof. intros Hs. simpl. rewrite Hs. apply orb_true_r. Qed.

Lemma contains_occurs (sub s : string) :
  contains sub s = true <-> occurs_in sub s.
Proof.
  split.
  - induction s as [|c s IH]; simpl; intros Hc.
    + rewrite orb_false_r in Hc. apply startswith_inv in Hc as [b ->].
      now exists "", b.
    + apply orb_true_iff in Hc as [Hp|Hr].
      * apply startswith_inv in Hp as [b ->]. now exists "", b.
      * destruct (IH Hr) as (a & b & ->). now exists (String c a), b.
  - intros (a & b & ->). induction a as [|c a IH].
    + cbn [append]. apply startswith_contains, startswith_app.
    + cbn [append]. apply contains_cons, IH.
Qed.

Lemma contains_false_iff (sub s : string) :
  contains sub s = false <-> ~ occurs_in sub s.
Proof.
  rewrite <- contains_occurs. destruct (contains sub s); intuition congruence.
Qed.

Lemma contains_char_cons (c d : ascii) (s : string) :
  contains (str c) (String d s) = Ascii.eqb c d || contains (str c) s.
Proof. simpl. now rewrite andb_true_r. Qed.

Lemma split_not_nil (sep : ascii) (s : string) : split sep s <> [].
Proof.
  destruct s as [|c s]; simpl; [discriminate|].
  destruct (Ascii.eqb c sep); [discriminate|].
  destruct (split sep s); discriminate.
Qed.

(** Joining the pieces with the separator gives the string back. *)
Lemma join_split (sep : ascii) (s : string) :
  join (str sep) (split sep s) = s.
Proof.
  unfold join. induction s as [|c s IH]; simpl; [reflexivity|].
  destruct (Ascii.eqb c sep) eqn:E.
  - apply Ascii.eqb_eq in E; subst c.
    destruct (split sep s) as [|x xs] eqn:Es; [now apply split_not_nil in Es|].
    simpl in *. now rewrite IH.
  - destruct (split sep s) as [|x xs] eqn:Es; [now apply split_not_nil in Es|].
    simpl in *. destruct xs; simpl in *; now rewrite <- IH.
Qed.

(** No piece contains the separator. *)
Lemma split_pieces (sep : ascii) (s : string) :
  Forall (fun p => contains (str sep) p = false) (split sep s).
Proof.
  induction s as [|c s IH]; simpl.
  - constructor; [reflexivity|constructor].
  - destruct (Ascii.eqb c sep) eqn:E.
    + constructor; [reflexivity|exact IH].
    + destruct (split sep s) as [|x xs] eqn:Es; [now apply split_not_nil in Es|].
      inversion IH; subst. constructor; [|assumption].
      rewrite contains_char_cons. rewrite Ascii.eqb_sym, E. assumption.
Qed.

Lemma split_no_sep (sep : ascii) (a : string) :
  contains (str sep) a = false -> split sep a = [a].
Proof.
  induction a as [|c a IH]; [reflexivity|].
  rewrite contains_char_cons. intros Hc.
  apply orb_false_iff in Hc as [Hc Ha]. simpl.
  rewrite Ascii.eqb_sym, Hc, (IH Ha). reflexivity.
Qed.

Lemma split_app_sep (sep : ascii) (a b : string) :
  contains (str sep) a = false ->
  split sep (a ++ String sep b) = a :: split sep b.
Proof.
  induction a as [|c a IH]; intros Hc.
  - simpl. now rewrite Ascii.eqb_refl.
  - rewrite contains_char_cons in Hc. apply orb_false_iff in Hc as [Hc Ha].
    simpl. rewrite Ascii.eqb_sym, Hc, (IH Ha). reflexivity.
Qed.

Lemma split_with_sep (sep : ascii) (s : string) :
  contains (str sep) s = true ->
  exists a r rest, split sep s = a :: r :: rest.
Proof.
  induction s as [|c s IH]; [discriminate|].
  rewrite contains_char_cons. intros Hc. simpl.
  destruct (Ascii.eqb c sep) eqn:E.
  - destruct (split sep s) as [|x xs] eqn:Es; [now apply split_not_nil in Es|].
    now exists "", x, xs.
  - rewrite Ascii.eqb_sym, E in Hc. simpl in Hc.
    destruct (IH Hc) as (a & r & rest & ->). now exists (String c a), r, rest.
Qed.

Lemma join_cons2 (sep x y : string) (l : list string) :
  join sep (x :: y :: l) = x ++ sep ++ join sep (y :: l).
Proof. reflexivity. Qed.

(** The second piece of the split at double quotes, when [s] has one. *)
Lemma second_piece_exists (s : string) :
  contains q s = true ->
  exists r, item (split dquote s) 1 = Ok r /\ after_first_quote s r.
Proof.
  intros Hc. destruct (split_with_sep dquote s Hc) as (a & r & rest & Es).
  exists r. split; [now rewrite Es|].
  pose proof (split_pieces dquote s) as Hp. rewrite Es in Hp.
  inversion Hp as [|? ? Ha Hp']; subst. inversion Hp' as [|? ? Hr _]; subst.
  pose proof (join_split dquote s) as Hj. rewrite Es, join_cons2 in Hj.
  exists a. repeat split; try assumption.
  destruct rest as [|y rest].
  - left. now rewrite <- Hj.
  - right. exists (join q (y :: rest)). rewrite <- Hj. reflexivity.
Qed.

Lemma second_piece_after (s r : string) :
  after_first_quote s r -> item (split dquote s) 1 = Ok r.
Proof.
  intros (a & Ha & Hr & [->| [b ->]]); unfold q; cbn [append str].
  - rewrite (split_app_sep _ _ _ Ha), (split_no_sep _ _ Hr). reflexivity.
  - rewrite (split_app_sep _ _ _ Ha), (split_app_sep _ _ _ Hr). reflexivity.
Qed.

Lemma between_is_after (s r : string) :
  between_first_quotes s r -> after_first_quote s r.
Proof. intros (a & b & -> & Ha & Hr). exists a. eauto. Qed.

Lemma second_piece_between (s r : string) :
  between_first_quotes s r -> item (split dquote s) 1 = Ok r.
Proof. intros Hb. now apply second_piece_after, between_is_after. Qed.

Lemma second_piece_missing (s : string) :
  contains q s = false -> item (split dquote s) 1 = Raise IndexError.
Proof. intros Hc. now rewrite (split_no_sep _ _ Hc). Qed.

(** The final dot-segment and what precedes it. *)
Lemma split_dot_last (b seg : string) :
  contains (str dot) seg = false ->
  exists l, split dot (b ++ "." ++ seg) = (l ++ [seg])%list /\
            l <> [] /\ join "." l = b.
Proof.
  intros Hs. induction b as [|c b (l & El & Hl & Hj)]; cbn [append].
  - exists [""]. simpl. rewrite (split_no_sep _ _ Hs).
    repeat split; congruence.
  - simpl. destruct (Ascii.eqb c dot) eqn:Ec.
    + apply Ascii.eqb_eq in Ec; subst c. exists ("" :: l).
      cbn [append] in El. rewrite El. repeat split; [congruence|].
      destruct l; [congruence|]. now rewrite join_cons2, Hj.
    + cbn [append] in El. rewrite El. destruct l as [|x l]; [congruence|].
      exists (String c x :: l). repeat split; [congruence|].
      destruct l; [now subst b|]. rewrite join_cons2 in *. now subst b.
Qed.

Lemma last_item_split (b seg : string) :
  contains (str dot) seg = false ->
  last_item (split dot (b ++ "." ++ seg)) = seg.
Proof.
  intros Hs. destruct (split_dot_last b _ Hs) as (l & -> & _).
  apply last_last.
Qed.

Lemma basename_of_app (b seg : string) :
  contains (str dot) seg = false ->
  basename_of (b ++ "." ++ seg) = b.
Proof.
  intros Hs. unfold basename_of, but_last.
  destruct (split_dot_last b _ Hs) as (l & -> & Hl & Hj).
  now rewrite removelast_last.
Qed.

Lemma replace_length (a b : ascii) (s : string) :
  String.length (replace a b s) = String.length s.
Proof. induction s; simpl; congruence. Qed.

Lemma replace_get (a b : ascii) (s : string) (i : nat) :
  String.get i (replace a b s) =
  option_map (fun c => if Ascii.eqb c a then b else c) (String.get i s).
Proof.
  revert i; induction s as [|c s IH]; intros [|i]; simpl; auto.
Qed.

Lemma replace_idem (a b : ascii) (s : string) :
  a <> b -> replace a b (replace a b s) = replace a b s.
Proof.
  intros Hab. induction s as [|c s IH]; simpl; [reflexivity|].
  rewrite IH. f_equal. destruct (Ascii.eqb c a) eqn:E; [|now rewrite E].
  destruct (Ascii.eqb b a) eqn:E'; [|reflexivity].
  apply Ascii.eqb_eq in E'. congruence.
Qed.

Lemma replace_no_occurrence (a b : ascii) (s : string) :
  a <> b -> contains (str a) (replace a b s) = false.
Proof.
  intros Hab. induction s as [|c s IH]; [reflexivity|].
  cbn [replace]. rewrite contains_char_cons, IH, orb_false_r.
  destruct (Ascii.eqb c a) eqn:E.
  - now apply Ascii.eqb_neq.
  - now rewrite Ascii.eqb_sym.
Qed.

(* ================================================================= *)
(** ** Dictionaries *)

Section DictFacts.
Variable V : Type.
Implicit Types (d : dict V) (k : string) (v : V).

Lemma dict_get_set_eq k v d : dict_get k (dict_set k v d) = Some v.
Proof.
  induction d as [|[k' v'] d IH]; simpl.
  - now rewrite String.eqb_refl.
  - destruct (String.eqb k' k) eqn:E; simpl.
    + now rewrite String.eqb_refl.
    + now rewrite E.
Qed.

Lemma dict_get_set_neq k k' v d :
  k' <> k -> dict_get k' (dict_set k v d) = dict_get k' d.
Proof.
  intros Hk. induction d as [|[k0 v0] d IH]; simpl.
  - apply String.eqb_neq in Hk. now rewrite String.eqb_sym, Hk.
  - destruct (String.eqb k0 k) eqn:E; simpl.
    + apply String.eqb_eq in E; subst k0.
      apply String.eqb_neq in Hk. now rewrite String.eqb_sym, Hk.
    + now rewrite IH.
Qed.

Lemma keys_dict_set k v d :
  keys (dict_set k v d) = (if dict_mem k d then keys d else keys d ++ [k])%list.
Proof.
  unfold dict_mem. induction d as [|[k0 v0] d IH]; simpl; [reflexivity|].
  destruct (String.eqb k0 k) eqn:E; simpl.
  - apply String.eqb_eq in E. now subst.
  - rewrite IH. now destruct (dict_get k d).
Qed.

Lemma dict_get_keys k d : In k (keys d) -> exists v, dict_get k d = Some v.
Proof.
  induction d as [|[k0 v0] d IH]; simpl; [tauto|].
  intros [->|Hin].
  - rewrite String.eqb_refl. eauto.
  - destruct (String.eqb k0 k); eauto.
Qed.

Lemma dict_item_keys k d : In k (keys d) -> exists v, dict_item d k = Ok v.
Proof.
  intros Hin. destruct (dict_get_keys _ _ Hin) as [v Hv].
  exists v. unfold dict_item. now rewrite Hv.
Qed.

Lemma dict_mem_set k k' v d :
  dict_mem k' (dict_set k v d) = String.eqb k k' || dict_mem k' d.
Proof.
  unfold dict_mem. destruct (String.eqb k k') eqn:E.
  - apply String.eqb_eq in E; subst. now rewrite dict_get_set_eq.
  - apply String.eqb_neq in E. rewrite dict_get_set_neq by congruence.
    reflexivity.
Qed.

End DictFacts.

(* ================================================================= *)
(** ** Lookup by name *)

Lemma first_named_found (tree : Element) (var : string) (node : Element) :
  first_named tree var = Ok node ->
  In node (iter tree) /\ name_or_empty node = var.
Proof.
  unfold first_named.
  destruct (find _ (iter tree)) eqn:E; [|discriminate].
  intros [= ->]. apply find_some in E as [Hin Hn].
  now apply String.eqb_eq in Hn.
Qed.

Lemma first_named_missing (tree : Element) (var : string) :
  no_node_named tree var <-> first_named tree var = Raise StopIteration.
Proof.
  unfold first_named, no_node_named. split.
  - intros Hno. destruct (find _ (iter tree)) eqn:E; [|reflexivity].
    apply find_some in E as [Hin Hn]. apply String.eqb_eq in Hn.
    now apply Hno in Hin.
  - destruct (find _ (iter tree)) eqn:E; [discriminate|].
    intros _ x Hin Hx. apply (find_none _ _ E) in Hin.
    apply String.eqb_neq in Hin. contradiction.
Qed.

Lemma first_named_cases (tree : Element) (var : string) :
  (exists node, first_named tree var = Ok node) \/
  first_named tree var = Raise StopIteration.
Proof.
  unfold first_named. destruct (find _ (iter tree)); eauto.
Qed.

(* ================================================================= *)
(** ** Alias resolution *)

Lemma get_final_value_chain (tree : Element) (var : string)
      (names : list string) (final : string) :
  alias_chain tree var names final ->
  forall depth, length names <= depth ->
  _get_final_value depth tree var = item (split dquote final) 1.
Proof.
  induction 1 as [var node s Hn Hs Hq | var node s names final Hn Hs Hq _ IH];
    intros [|depth] Hd; simpl in Hd; try lia; simpl; rewrite Hn; simpl;
    rewrite Hs; simpl; fold q; rewrite Hq.
  - reflexivity.
  - apply IH. lia.
Qed.

Lemma get_final_value_shallow (tree : Element) (var : string)
      (names : list string) (final : string) :
  alias_chain tree var names final ->
  forall depth, depth < length names ->
  _get_final_value depth tree var = Raise RecursionError.
Proof.
  induction 1 as [var node s Hn Hs Hq | var node s names final Hn Hs Hq _ IH];
    intros [|depth] Hd; simpl in Hd; try reflexivity; try lia; simpl;
    rewrite Hn; simpl; rewrite Hs; simpl; fold q; rewrite Hq.
  apply IH. lia.
Qed.

(** An alias that names itself exhausts every recursion depth. *)
Lemma get_final_value_self_alias (tree : Element) (var : string)
      (node : Element) :
  first_named tree var = Ok node ->
  attrib_string (find_child "bindExpression" node) = Ok var ->
  contains q var = false ->
  forall depth, _get_final_value depth tree var = Raise RecursionError.
Proof.
  intros Hn Hs Hq. induction depth as [|depth IH]; [reflexivity|].
  simpl. rewrite Hn. simpl. rewrite Hs. simpl. fold q. now rewrite Hq.
Qed.

Lemma alias_chain_named (tree : Element) (var : string)
      (names : list string) (final : string) :
  alias_chain tree var names final ->
  incl names (map name_or_empty (iter tree)).
Proof.
  induction 1 as [var node s Hn _ _ | var node s names final Hn _ _ _ IH];
    apply first_named_found in Hn as [Hin <-];
    intros x [<-|Hx]; try (now apply in_map); [contradiction|now apply IH].
Qed.

Lemma alias_chain_det (tree : Element) (var : string)
      (n1 n2 : list string) (f1 f2 : string) :
  alias_chain tree var n1 f1 -> alias_chain tree var n2 f2 ->
  n1 = n2 /\ f1 = f2.
Proof.
  intros H1; revert n2 f2.
  induction H1 as [var node s Hn Hs Hq | var node s names final Hn Hs Hq _ IH];
    intros n2 f2 H2; inversion H2; subst; try congruence.
  - split; congruence.
  - assert (s0 = s) by congruence; subst s0.
    destruct (IH _ _ H3) as [-> ->]. now split.
Qed.

Lemma alias_chain_from (tree : Element) (var : string)
      (names : list string) (final : string) :
  alias_chain tree var names final ->
  forall x, In x names ->
  exists names', alias_chain tree x names' final /\ length names' <= length names.
Proof.
  induction 1 as [var node s Hn Hs Hq | var node s names final Hn Hs Hq Hc IH];
    intros x [<-|Hx]; try contradiction.
  - exists [var]. split; [econstructor; eassumption|lia].
  - exists (var :: names). split; [econstructor 2; eassumption|lia].
  - destruct (IH _ Hx) as (names' & Hc' & Hl). exists names'. simpl. split; [assumption|lia].
Qed.

(** A chain that ends never looks a name up twice. *)
Lemma alias_chain_NoDup (tree : Element) (var : string)
      (names : list string) (final : string) :
  alias_chain tree var names final -> NoDup names.
Proof.
  intros Hc. pose proof Hc as Hc0.
  induction Hc as [var node s Hn Hs Hq | var node s names final Hn Hs Hq Hc IH].
  - repeat constructor. intros [].
  - constructor; [|now apply IH].
    intros Hin. destruct (alias_chain_from Hc _ Hin) as (names' & Hc' & Hl).
    destruct (alias_chain_det Hc0 Hc') as [<- _]. simpl in Hl. lia.
Qed.

Lemma alias_chain_final (tree : Element) (var : string)
      (names : list string) (final : string) :
  alias_chain tree var names final -> contains q final = true.
Proof. induction 1; assumption. Qed.

Lemma after_first_quote_unique (s r r' : string) :
  after_first_quote s r -> after_first_quote s r' -> r = r'.
Proof.
  intros H1 H2. apply second_piece_after in H1, H2. congruence.
Qed.

(** C3 (as amended).  When the alias chain from [var] reaches a
    quote-containing string [final] without looking a name up twice, every
    name on it naming a node with a bindExpression string, then the chain
    has at most as many lookups as the tree has elements, and with a
    recursion depth of at least that many calls [_get_final_value] returns
    the text [r] that follows the first double quote of [final] up to the
    next double quote or, when there is none, up to the end of [final];
    when [final] has a pair of double quotes, [r] is the text between the
    first pair. *)
Theorem alias_resolution_terminates (tree : Element) (var : string)
        (names : list string) (final : string) :
  alias_chain tree var names final ->
  NoDup names ->
  length names <= length (iter tree) /\
  exists r,
    after_first_quote final r /\
    (forall r', between_first_quotes final r' -> r' = r) /\
    forall depth, length names <= depth ->
                  _get_final_value depth tree var = Ok r.
Proof.
  intros Hc Hnd. split.
  - rewrite <- (length_map name_or_empty (iter tree)).
    apply NoDup_incl_length; [assumption|].
    eapply alias_chain_named; eassumption.
  - pose proof (alias_chain_final Hc) as Hq.
    destruct (second_piece_exists _ Hq) as (r & Hr & Ha).
    exists r. split; [assumption|]. split.
    + intros r' Hb. apply between_is_after in Hb.
      eapply after_first_quote_unique; eassumption.
    + intros depth Hd. now rewrite (get_final_value_chain Hc).
Qed.

Lemma plant_zone_chain :
  alias_chain Samples.plant "zone1.zone"
    ["zone1.zone"; "zone1.building.zoneName"; "building.name"]
    (Samples.quoted "Core_ZONE").
Proof.
  eapply chain_alias; [reflexivity..|].
  eapply chain_alias; [reflexivity..|].
  eapply chain_literal; reflexivity.
Qed.

Lemma alias_resolution_terminates_witness :
  3 <= length (iter Samples.plant) /\
  exists r,
    after_first_quote (Samples.quoted "Core_ZONE") r /\
    (forall r', between_first_quotes (Samples.quoted "Core_ZONE") r' -> r' = r) /\
    forall depth, 3 <= depth ->
                  _get_final_value depth Samples.plant "zone1.zone" = Ok r.
Proof.
  apply (alias_resolution_terminates plant_zone_chain).
  repeat constructor; simpl; intuition discriminate.
Defined.

(** C3, counterexample.  The chain from [z.zone] ends at once in a string
    with a single double quote: the function returns what follows that
    quote, and no text lies between a first pair of double quotes. *)
Lemma alias_resolution_single_quote :
  alias_chain Samples.one_quote "z.zone" ["z.zone"] ("abc" ++ q ++ "def") /\
  NoDup ["z.zone"] /\
  _get_final_value 1 Samples.one_quote "z.zone" = Ok "def" /\
  ~ exists r, between_first_quotes ("abc" ++ q ++ "def") r.
Proof.
  split; [eapply chain_literal; reflexivity|].
  split; [repeat constructor; intros []|].
  split; [reflexivity|].
  intros (r & a & b & E & Ha & Hr).
  assert (Hs : split dquote ("abc" ++ q ++ "def") = a :: r :: split dquote b).
  { rewrite E. unfold q; cbn [append str].
    now rewrite (split_app_sep _ _ _ Ha), (split_app_sep _ _ _ Hr). }
  vm_compute in Hs. injection Hs as _ _ Hs.
  symmetry in Hs. now apply split_not_nil in Hs.
Qed.

(* ================================================================= *)
(** ** Name mangling *)

(** C7.  [_make_var_name] replaces every dot of the path by an underscore
    and returns, for style input_signal, the name, [_u], the attribute and
    the quoted description; for input_activate, the name, [_activate] and
    the quoted description; for output, the name, [_y], the attribute and
    the quoted description; the quoted clause (a space and the description
    in double quotes) is left out when the description is empty; any other
    style raises ValueError. *)
Theorem make_var_name_forms (path description attribute : string) :
  let name := replace dot underscore path in
  let clause := " " ++ q ++ description ++ q in
  (String.length name = String.length path /\
   forall i, String.get i name =
             option_map (fun c => if Ascii.eqb c dot then underscore else c)
                        (String.get i path)) /\
  (description <> "" ->
   _make_var_name path "input_signal" description attribute
     = Ok (name ++ "_u" ++ attribute ++ clause) /\
   _make_var_name path "input_activate" description attribute
     = Ok (name ++ "_activate" ++ clause) /\
   _make_var_name path "output" description attribute
     = Ok (name ++ "_y" ++ attribute ++ clause)) /\
  (description = "" ->
   _make_var_name path "input_signal" description attribute
     = Ok (name ++ "_u" ++ attribute) /\
   _make_var_name path "input_activate" description attribute
     = Ok (name ++ "_activate") /\
   _make_var_name path "output" description attribute
     = Ok (name ++ "_y" ++ attribute)) /\
  (forall style,
      style <> "input_signal" -> style <> "input_activate" ->
      style <> "output" ->
      exists e, _make_var_name path style description attribute = Raise e /\
                InvalidRoleError e).
Proof.
  cbv zeta. split; [split; [apply replace_length|apply replace_get]|].
  split; [|split].
  - intros Hd. apply String.eqb_neq in Hd.
    unfold _make_var_name. simpl. rewrite Hd. auto.
  - intros ->. unfold _make_var_name. simpl.
    now rewrite !append_empty_r.
  - intros style H1 H2 H3. apply String.eqb_neq in H1, H2, H3.
    exists ValueError. unfold _make_var_name, InvalidRoleError.
    now rewrite H1, H2, H3.
Qed.

Lemma make_var_name_forms_witness :
  _make_var_name "sys.ctrl" "output" "setpoint" "(unit=K)"
    = Ok ("sys_ctrl_y(unit=K) " ++ q ++ "setpoint" ++ q) /\
  _make_var_name "sys.ctrl" "input_activate" "" "" = Ok "sys_ctrl_activate" /\
  exists e, _make_var_name "sys.ctrl" "inout" "setpoint" "(unit=K)" = Raise e /\
            InvalidRoleError e.
Proof.
  split; [|split].
  - destruct (make_var_name_forms "sys.ctrl" "setpoint" "(unit=K)")
      as (_ & Hd & _ & _).
    apply Hd. discriminate.
  - destruct (make_var_name_forms "sys.ctrl" "" "") as (_ & _ & Hd & _).
    apply Hd. reflexivity.
  - destruct (make_var_name_forms "sys.ctrl" "setpoint" "(unit=K)")
      as (_ & _ & _ & Hs).
    apply Hs; discriminate.
Defined.

Lemma make_var_name_replace (path style description attribute : string) :
  _make_var_name (replace dot underscore path) style description attribute
  = _make_var_name path style description attribute.
Proof.
  unfold _make_var_name. now rewrite replace_idem by discriminate.
Qed.

(** C10.  Name mangling is not injective: [a.b] and [a_b] are distinct
    paths with the same generated identifier for every style, and so is
    every path with a dot and its mangled form.  Read as two blocks of one
    document, they give two output declarations of the same identifier in
    the wrapper text, and twice the same identifier in a signal-group
    list. *)
Theorem mangling_not_injective {float : Type} `{PyFloat float} :
  "a.b" <> "a_b" /\
  (forall style description attribute,
      _make_var_name "a.b" style description attribute
      = _make_var_name "a_b" style description attribute) /\
  (forall path,
      occurs_in "." path ->
      replace dot underscore path <> path /\
      forall style description attribute,
        _make_var_name (replace dot underscore path) style description attribute
        = _make_var_name path style description attribute) /\
  exists instances signals text,
    parse_XML 1 Samples.colliding = Ok (instances, signals) /\
    keys (Read instances) = ["a.b"; "a_b"] /\
    create_wrapper "M" instances = ([], Ok (Some text)) /\
    count_sub "Modelica.Blocks.Interfaces.RealOutput a_b_y(unit=" text = 2 /\
    signals = [("None", ["a_b_y"; "a_b_y"])].
Proof.
  split; [discriminate|]. split; [reflexivity|]. split.
  - intros path Hocc. split; [|intros; apply make_var_name_replace].
    intros E. apply contains_occurs in Hocc.
    rewrite <- E in Hocc.
    change "." with (str dot) in Hocc.
    rewrite replace_no_occurrence in Hocc by discriminate. discriminate.
  - eexists _, _, _. split; [vm_compute; reflexivity|].
    split; [reflexivity|]. split; [vm_compute; reflexivity|].
    split; vm_compute; reflexivity.
Qed.

(* ================================================================= *)
(** ** Extraction of read and overwrite blocks *)

Section ReadWrite.
Context {float : Type} `{PyFloat float}.

(** [_process_readwrite] reads the record, then stores it; when a read
    raises, nothing is stored. *)
Lemma process_readwrite_unfold (tree : Element) (name : string) (flag : nat)
      (instances : Instances float) :
  _process_readwrite tree name flag instances =
  match record_read tree name flag with
  | Ok r => (set_instance (label_of flag) (basename_of name) r instances, Ok tt)
  | Raise e => (instances, Raise e)
  end.
Proof.
  unfold _process_readwrite, record_read, label_of, mbind, lift, modify.
  destruct (first_named tree _) as [node|]; simpl; [|reflexivity].
  destruct (grandchild_string _ _ node) as [su|]; simpl; [|reflexivity].
  destruct (item (split dquote su) 1) as [unit|]; simpl; [|reflexivity].
  destruct (first_named tree _) as [dnode|]; simpl; [|reflexivity].
  destruct (attrib_string _) as [sd|]; simpl; [|reflexivity].
  destruct (item (split dquote sd) 1) as [description|]; simpl; [|reflexivity].
  destruct (Nat.eqb flag READ); simpl; [reflexivity|].
  destruct (grandchild_string _ "minValue" node) as [s1|]; simpl; [|reflexivity].
  destruct (to_float s1) as [mini|]; simpl; [|reflexivity].
  destruct (grandchild_string _ "maxValue" node) as [s2|]; simpl; [|reflexivity].
  destruct (to_float s2) as [maxi|]; simpl; reflexivity.
Qed.

Lemma process_readwrite_raise (tree : Element) (name : string) (flag : nat)
      (instances instances' : Instances float) (e : exn) :
  _process_readwrite tree name flag instances = (instances', Raise e) ->
  instances' = instances /\ record_read tree name flag = Raise e.
Proof.
  rewrite process_readwrite_unfold.
  destruct (record_read tree name flag); [discriminate|].
  intros [= <- <-]. now split.
Qed.

Lemma process_readwrite_ok (tree : Element) (name : string) (flag : nat)
      (instances instances' : Instances float) :
  _process_readwrite tree name flag instances = (instances', Ok tt) ->
  exists r, record_read tree name flag = Ok r /\
            instances' = set_instance (label_of flag) (basename_of name) r instances.
Proof.
  rewrite process_readwrite_unfold.
  destruct (record_read tree name flag) as [r|]; [|discriminate].
  intros [= <-]. now exists r.
Qed.

Lemma instances_at_set_same (label k : string) (r : InstanceRecord float)
      (i : Instances float) :
  label = "Read" \/ label = "Overwrite" ->
  instances_at label (set_instance label k r i) = dict_set k r (instances_at label i).
Proof. intros [->| ->]; reflexivity. Qed.

Lemma label_of_cases (flag : nat) :
  label_of flag = "Read" \/ label_of flag = "Overwrite".
Proof. unfold label_of. destruct (Nat.eqb flag READ); auto. Qed.

(** What a successful read of the record has looked up. *)
Lemma record_read_ok (tree : Element) (name : string) (flag : nat)
      (r : InstanceRecord float) :
  record_read tree name flag = Ok r ->
  exists node su dnode sd,
    first_named tree (basename_of name ++ suffix_of flag) = Ok node /\
    grandchild_string "attributesValues" "unit" node = Ok su /\
    item (split dquote su) 1 = Ok (Unit r) /\
    first_named tree (basename_of name ++ ".description") = Ok dnode /\
    attrib_string (find_child "bindExpression" dnode) = Ok sd /\
    item (split dquote sd) 1 = Ok (Description r) /\
    (flag = READ -> Minimum r = None /\ Maximum r = None) /\
    (flag <> READ ->
     exists smin smax mini maxi,
       grandchild_string "attributesValues" "minValue" node = Ok smin /\
       float_of_string smin = Some mini /\
       grandchild_string "attributesValues" "maxValue" node = Ok smax /\
       float_of_string smax = Some maxi /\
       Minimum r = Some mini /\ Maximum r = Some maxi).
Proof.
  unfold record_read, suffix_of.
  destruct (first_named tree _) as [node|] eqn:En; simpl; [|discriminate].
  destruct (grandchild_string _ _ node) as [su|] eqn:Esu; simpl; [|discriminate].
  destruct (item (split dquote su) 1) as [unit|] eqn:Eu; simpl; [|discriminate].
  destruct (first_named tree (basename_of name ++ ".description"))
    as [dnode|] eqn:Ed; simpl; [|discriminate].
  destruct (attrib_string (find_child "bindExpression" dnode))
    as [sd|] eqn:Esd; simpl; [|discriminate].
  destruct (item (split dquote sd) 1) as [description|] eqn:Edesc; simpl;
    [|discriminate].
  destruct (Nat.eqb flag READ) eqn:Ef; simpl.
  - intros [= <-]. exists node, su, dnode, sd. simpl.
    apply Nat.eqb_eq in Ef. repeat split; try assumption; congruence.
  - apply Nat.eqb_neq in Ef.
    destruct (grandchild_string _ "minValue" node) as [s1|] eqn:E1; simpl;
      [|discriminate].
    unfold to_float.
    destruct (float_of_string s1) as [mini|] eqn:F1; simpl; [|discriminate].
    destruct (grandchild_string _ "maxValue" node) as [s2|] eqn:E2; simpl;
      [|discriminate].
    destruct (float_of_string s2) as [maxi|] eqn:F2; simpl; [|discriminate].
    intros [= <-]. exists node, su, dnode, sd. simpl.
    repeat split; try assumption; try congruence.
    intros _. now exists s1, s2, mini, maxi.
Qed.

Lemma second_piece_ok (s r : string) :
  item (split dquote s) 1 = Ok r -> after_first_quote s r.
Proof.
  intros Hr. destruct (contains q s) eqn:Hq.
  - destruct (second_piece_exists _ Hq) as (r' & Hr' & Ha). congruence.
  - rewrite (second_piece_missing _ Hq) in Hr. discriminate.
Qed.

End ReadWrite.

Lemma between_three_pieces (s r : string) :
  between_first_quotes s r -> 3 <= length (split dquote s).
Proof.
  intros (a & b & -> & Ha & Hr). unfold q; cbn [append str].
  rewrite (split_app_sep _ _ _ Ha), (split_app_sep _ _ _ Hr). simpl.
  destruct (split dquote b) eqn:E; [now apply split_not_nil in E|simpl; lia].
Qed.

(** C5 (as amended).  When the extraction for a Read or Overwrite variable
    succeeds, the record stored under its basename has as Unit and
    Description the text after the first double quote of the unit string
    and of the description string (strings, possibly empty); Minimum and
    Maximum are present exactly for Overwrite, where they are the floats
    parsed from the minValue and maxValue strings of the signal node, and
    are None for Read. *)
Theorem readwrite_record_fields {float : Type} `{PyFloat float} (tree : Element) (name : string)
        (flag : nat) (instances instances' : Instances float) :
  flag = READ \/ flag = OVERWRITE ->
  _process_readwrite tree name flag instances = (instances', Ok tt) ->
  exists node su dnode sd r,
    first_named tree (basename_of name ++ suffix_of flag) = Ok node /\
    grandchild_string "attributesValues" "unit" node = Ok su /\
    first_named tree (basename_of name ++ ".description") = Ok dnode /\
    attrib_string (find_child "bindExpression" dnode) = Ok sd /\
    dict_get (basename_of name) (instances_at (label_of flag) instances') = Some r /\
    after_first_quote su (Unit r) /\
    after_first_quote sd (Description r) /\
    (flag = READ -> Minimum r = None /\ Maximum r = None) /\
    (flag = OVERWRITE ->
     exists smin smax mini maxi,
       grandchild_string "attributesValues" "minValue" node = Ok smin /\
       float_of_string smin = Some mini /\
       grandchild_string "attributesValues" "maxValue" node = Ok smax /\
       float_of_string smax = Some maxi /\
       Minimum r = Some mini /\ Maximum r = Some maxi) /\
    (Minimum r <> None <-> flag = OVERWRITE) /\
    (Maximum r <> None <-> flag = OVERWRITE).
Proof.
  intros Hflag Hrun.
  destruct (process_readwrite_ok _ _ _ _ Hrun) as (r & Hr & ->).
  destruct (record_read_ok _ _ _ Hr)
    as (node & su & dnode & sd & Hn & Hsu & Hu & Hd & Hsd & Hdesc & Hread & Hover).
  exists node, su, dnode, sd, r.
  repeat (split; [assumption|]).
  split.
  { rewrite instances_at_set_same by apply label_of_cases.
    apply dict_get_set_eq. }
  split; [now apply second_piece_ok|].
  split; [now apply second_piece_ok|].
  split; [assumption|].
  destruct Hflag as [->| ->].
  - destruct (Hread eq_refl) as [-> ->].
    split; [discriminate|]. split; split; intros; congruence || discriminate.
  - destruct Hover as (smin & smax & mini & maxi & ? & ? & ? & ? & Hmin & Hmax);
      [discriminate|].
    split; [intros _; now exists smin, smax, mini, maxi|].
    rewrite Hmin, Hmax. split; split; intros; congruence.
Qed.

Lemma readwrite_record_fields_witness :
  exists r : InstanceRecord string,
    Unit r = "K" /\ Description r = "setpoint" /\
    Minimum r <> None /\ Maximum r <> None.
Proof.
  edestruct (@readwrite_record_fields string DecFloat.ops Samples.plant
               "sys.ctrl.boptestOverwrite" OVERWRITE empty_instances)
    as (node & su & dnode & sd & r & Hn & Hsu & Hd & Hsd & Hr & Hu & Hdesc
        & _ & _ & Hmin & Hmax).
  - right. reflexivity.
  - vm_compute. reflexivity.
  - exists r. vm_compute in Hr. injection Hr as <-.
    simpl. repeat split; discriminate.
Defined.

(** C5, counterexample.  The variable [s.boptestRead] is classified Read;
    its unit and description strings are two double quotes with nothing
    between them; the extraction succeeds and stores an empty Unit and an
    empty Description. *)
Lemma readwrite_empty_unit_description :
  @flag_of "s.boptestRead" = Some READ /\
  exists instances' r,
    @_process_readwrite string DecFloat.ops Samples.empty_quoted "s.boptestRead" READ
      empty_instances = (instances', Ok tt) /\
    dict_get "s" (Read instances') = Some r /\
    Unit r = "" /\ Description r = "".
Proof.
  split; [reflexivity|].
  eexists _, _. split; [vm_compute; reflexivity|].
  split; [reflexivity|]. split; reflexivity.
Qed.

Section ReadWriteFailures.
Context {float : Type} `{PyFloat float}.
Variables (tree : Element) (name : string) (flag : nat) (instances : Instances float).

Lemma fails_missing_signal_node :
  no_node_named tree (basename_of name ++ suffix_of flag) ->
  fails_with MissingNodeError (_process_readwrite tree name flag instances) instances.
Proof.
  intros Hno. apply first_named_missing in Hno.
  exists StopIteration. split; [|reflexivity].
  rewrite process_readwrite_unfold.
  unfold record_read, suffix_of in *. now rewrite Hno.
Qed.

Lemma fails_unquoted_unit (node : Element) (su : string) :
  first_named tree (basename_of name ++ suffix_of flag) = Ok node ->
  grandchild_string "attributesValues" "unit" node = Ok su ->
  ~ occurs_in q su ->
  fails_with MalformedAttributeError (_process_readwrite tree name flag instances) instances.
Proof.
  intros Hn Hsu Hq. apply contains_false_iff in Hq.
  exists IndexError. split; [|now left].
  rewrite process_readwrite_unfold.
  unfold record_read, suffix_of in *. rewrite Hn; simpl. rewrite Hsu; simpl.
  now rewrite (second_piece_missing _ Hq).
Qed.

Lemma fails_missing_description_node (node : Element) (su unit : string) :
  first_named tree (basename_of name ++ suffix_of flag) = Ok node ->
  grandchild_string "attributesValues" "unit" node = Ok su ->
  after_first_quote su unit ->
  no_node_named tree (basename_of name ++ ".description") ->
  fails_with MissingNodeError (_process_readwrite tree name flag instances) instances.
Proof.
  intros Hn Hsu Hu Hno. apply first_named_missing in Hno.
  apply second_piece_after in Hu.
  exists StopIteration. split; [|reflexivity].
  rewrite process_readwrite_unfold.
  unfold record_read, suffix_of in *. rewrite Hn; simpl. rewrite Hsu; simpl.
  rewrite Hu; simpl. now rewrite Hno.
Qed.

Lemma fails_unquoted_description (node dnode : Element) (su unit sd : string) :
  first_named tree (basename_of name ++ suffix_of flag) = Ok node ->
  grandchild_string "attributesValues" "unit" node = Ok su ->
  after_first_quote su unit ->
  first_named tree (basename_of name ++ ".description") = Ok dnode ->
  attrib_string (find_child "bindExpression" dnode) = Ok sd ->
  ~ occurs_in q sd ->
  fails_with MalformedAttributeError (_process_readwrite tree name flag instances) instances.
Proof.
  intros Hn Hsu Hu Hd Hsd Hq. apply contains_false_iff in Hq.
  apply second_piece_after in Hu.
  exists IndexError. split; [|now left].
  rewrite process_readwrite_unfold.
  unfold record_read, suffix_of in *. rewrite Hn; simpl. rewrite Hsu; simpl.
  rewrite Hu; simpl. rewrite Hd; simpl. rewrite Hsd; simpl.
  now rewrite (second_piece_missing _ Hq).
Qed.

Lemma fails_bad_minimum (node dnode : Element)
      (su unit sd description smin : string) :
  flag = OVERWRITE ->
  first_named tree (basename_of name ++ suffix_of flag) = Ok node ->
  grandchild_string "attributesValues" "unit" node = Ok su ->
  after_first_quote su unit ->
  first_named tree (basename_of name ++ ".description") = Ok dnode ->
  attrib_string (find_child "bindExpression" dnode) = Ok sd ->
  after_first_quote sd description ->
  grandchild_string "attributesValues" "minValue" node = Ok smin ->
  float_of_string smin = None ->
  fails_with MalformedAttributeError (_process_readwrite tree name flag instances) instances.
Proof.
  intros -> Hn Hsu Hu Hd Hsd Hdesc Hmin Hf.
  apply second_piece_after in Hu, Hdesc.
  exists ValueError. split; [|now right].
  rewrite process_readwrite_unfold.
  unfold record_read, suffix_of, to_float in *. simpl in *.
  rewrite Hn; simpl. rewrite Hsu; simpl.
  rewrite Hu; simpl. rewrite Hd; simpl. rewrite Hsd; simpl.
  rewrite Hdesc; simpl. rewrite Hmin; simpl. now rewrite Hf.
Qed.

Lemma fails_bad_maximum (node dnode : Element)
      (su unit sd description smin smax : string) (mini : float) :
  flag = OVERWRITE ->
  first_named tree (basename_of name ++ suffix_of flag) = Ok node ->
  grandchild_string "attributesValues" "unit" node = Ok su ->
  after_first_quote su unit ->
  first_named tree (basename_of name ++ ".description") = Ok dnode ->
  attrib_string (find_child "bindExpression" dnode) = Ok sd ->
  after_first_quote sd description ->
  grandchild_string "attributesValues" "minValue" node = Ok smin ->
  float_of_string smin = Some mini ->
  grandchild_string "attributesValues" "maxValue" node = Ok smax ->
  float_of_string smax = None ->
  fails_with MalformedAttributeError (_process_readwrite tree name flag instances) instances.
Proof.
  intros -> Hn Hsu Hu Hd Hsd Hdesc Hmin Hf Hmax Hf'.
  apply second_piece_after in Hu, Hdesc.
  exists ValueError. split; [|now right].
  rewrite process_readwrite_unfold.
  unfold record_read, suffix_of, to_float in *. simpl in *.
  rewrite Hn; simpl. rewrite Hsu; simpl.
  rewrite Hu; simpl. rewrite Hd; simpl. rewrite Hsd; simpl.
  rewrite Hdesc; simpl. rewrite Hmin; simpl. rewrite Hf; simpl.
  rewrite Hmax; simpl. now rewrite Hf'.
Qed.

End ReadWriteFailures.

(** C8 (as amended).  Extraction for a Read or Overwrite variable fails, in
    the order in which the program reads: with MissingNodeError
    (StopIteration) when no node is named basename + [.y] (Read) or [.u]
    (Overwrite); with MalformedAttributeError (IndexError) when that node's
    unit string has no double quote at all; with MissingNodeError when the
    unit was read and no node is named basename + [.description]; with
    MalformedAttributeError when the description string has no double quote
    at all; and, for Overwrite, with MalformedAttributeError (ValueError)
    when the minValue string, or after it the maxValue string, is no float
    literal.  Whenever the extraction raises, the maps are left as they
    were. *)
Theorem readwrite_failures {float : Type} `{PyFloat float} (tree : Element) (name : string)
        (flag : nat) (instances : Instances float) :
  let run := _process_readwrite tree name flag instances in
  let signal_name := basename_of name ++ suffix_of flag in
  let description_name := basename_of name ++ ".description" in
  (no_node_named tree signal_name ->
   fails_with MissingNodeError run instances) /\
  (forall node su,
      first_named tree signal_name = Ok node ->
      grandchild_string "attributesValues" "unit" node = Ok su ->
      (~ occurs_in q su -> fails_with MalformedAttributeError run instances) /\
      (forall unit,
          after_first_quote su unit ->
          (no_node_named tree description_name ->
           fails_with MissingNodeError run instances) /\
          (forall dnode sd,
              first_named tree description_name = Ok dnode ->
              attrib_string (find_child "bindExpression" dnode) = Ok sd ->
              (~ occurs_in q sd ->
               fails_with MalformedAttributeError run instances) /\
              (forall description smin,
                  flag = OVERWRITE ->
                  after_first_quote sd description ->
                  grandchild_string "attributesValues" "minValue" node = Ok smin ->
                  (float_of_string smin = None ->
                   fails_with MalformedAttributeError run instances) /\
                  (forall mini smax,
                      float_of_string smin = Some mini ->
                      grandchild_string "attributesValues" "maxValue" node = Ok smax ->
                      float_of_string smax = None ->
                      fails_with MalformedAttributeError run instances))))) /\
  (forall instances' e, run = (instances', Raise e) -> instances' = instances).
Proof.
  cbv zeta. split; [apply fails_missing_signal_node|]. split.
  - intros node su Hn Hsu.
    split; [intros; eapply fails_unquoted_unit; eassumption|].
    intros unit Hu.
    split; [intros; eapply fails_missing_description_node; eassumption|].
    intros dnode sd Hd Hsd.
    split; [intros; eapply fails_unquoted_description; eassumption|].
    intros description smin Hf Hdesc Hmin. split.
    + intros. eapply fails_bad_minimum; eassumption.
    + intros. eapply fails_bad_maximum; eassumption.
  - intros instances' e Hrun. now apply process_readwrite_raise in Hrun.
Qed.

Lemma readwrite_failures_witness :
  let run doc :=
    @_process_readwrite string DecFloat.ops doc "p.boptestOverwrite" OVERWRITE
      empty_instances in
  fails_with MissingNodeError
    (run (Samples.overwrite_block [])) empty_instances /\
  fails_with MalformedAttributeError
    (run (Samples.overwrite_block [Samples.signal_node "K" "1.0" "2.0"]))
    empty_instances /\
  fails_with MissingNodeError
    (run (Samples.overwrite_block
            [Samples.signal_node (Samples.quoted "K") "1.0" "2.0"]))
    empty_instances /\
  fails_with MalformedAttributeError
    (run (Samples.overwrite_block
            [Samples.signal_node (Samples.quoted "K") "lo" "2.0";
             Samples.description_node (Samples.quoted "d")]))
    empty_instances.
Proof.
  cbv zeta. repeat split.
  - apply (@readwrite_failures string DecFloat.ops).
    apply first_named_missing. reflexivity.
  - destruct (@readwrite_failures string DecFloat.ops
                (Samples.overwrite_block [Samples.signal_node "K" "1.0" "2.0"])
                "p.boptestOverwrite" OVERWRITE empty_instances)
      as (_ & Hnode & _).
    edestruct Hnode as (Hunit & _); [reflexivity|reflexivity|].
    apply Hunit. apply contains_false_iff. reflexivity.
  - destruct (@readwrite_failures string DecFloat.ops
                (Samples.overwrite_block
                   [Samples.signal_node (Samples.quoted "K") "1.0" "2.0"])
                "p.boptestOverwrite" OVERWRITE empty_instances)
      as (_ & Hnode & _).
    edestruct Hnode as (_ & Hunit); [reflexivity|reflexivity|].
    edestruct Hunit as (Hdnode & _); [apply second_piece_ok; reflexivity|].
    apply Hdnode. apply first_named_missing. reflexivity.
  - destruct (@readwrite_failures string DecFloat.ops
                (Samples.overwrite_block
                   [Samples.signal_node (Samples.quoted "K") "lo" "2.0";
                    Samples.description_node (Samples.quoted "d")])
                "p.boptestOverwrite" OVERWRITE empty_instances)
      as (_ & Hnode & _).
    edestruct Hnode as (_ & Hunit); [reflexivity|reflexivity|].
    edestruct Hunit as (_ & Hdnode); [apply second_piece_ok; reflexivity|].
    edestruct Hdnode as (_ & Hbounds); [reflexivity|reflexivity|].
    edestruct Hbounds as (Hmin & _);
      [reflexivity|apply second_piece_ok; reflexivity|reflexivity|].
    apply Hmin. reflexivity.
Defined.

(** C8, counterexample.  The unit string of [s.y] is [K] followed by a
    single double quote: it holds no quoted substring, yet the extraction
    raises nothing and stores an entry for [s] whose Unit is the (empty)
    text after that quote. *)
Lemma readwrite_single_quote_unit :
  (exists node,
      first_named Samples.one_quote "s.y" = Ok node /\
      grandchild_string "attributesValues" "unit" node = Ok ("K" ++ q)) /\
  (~ exists r, between_first_quotes ("K" ++ q) r) /\
  exists instances' r,
    @_process_readwrite string DecFloat.ops Samples.one_quote "s.boptestRead" READ
      empty_instances = (instances', Ok tt) /\
    dict_get "s" (Read instances') = Some r /\ Unit r = "".
Proof.
  split; [eexists; split; reflexivity|]. split.
  - intros (r & Hb). apply between_three_pieces in Hb.
    vm_compute in Hb. lia.
  - eexists _, _. split; [vm_compute; reflexivity|]. split; reflexivity.
Qed.



(* ================================================================= *)
(** ** Classification *)

(** The loop of [parse_XML] runs over the variable elements, in document
    order. *)
Lemma iter_tag_In (t : string) (tree x : Element) :
  In x (iter_tag t tree) <-> In x (iter tree) /\ tag x = t.
Proof.
  unfold iter_tag. rewrite filter_In. now rewrite String.eqb_eq.
Qed.

Lemma parse_var_unnamed {float : Type} `{PyFloat float} (depth : nat)
      (tree var : Element) (st : Instances float * Signals) :
  get "name" var = None ->
  parse_var depth tree var st = (st, Raise TypeError).
Proof. intros Hn. unfold parse_var. now rewrite Hn. Qed.

Lemma process_readwrite_confined {float : Type} `{PyFloat float} (tree : Element) (name : string)
      (flag : nat) (instances : Instances float) :
  let instances' := fst (_process_readwrite tree name flag instances) in
  (flag = READ -> Overwrite instances' = Overwrite instances) /\
  (flag <> READ -> Read instances' = Read instances).
Proof.
  cbv zeta. rewrite process_readwrite_unfold.
  destruct (record_read tree name flag); simpl; [|tauto].
  unfold set_instance, label_of. split.
  - intros ->. reflexivity.
  - intros Hf. apply Nat.eqb_neq in Hf. now rewrite Hf.
Qed.

(* ================================================================= *)
(** ** Signal groups *)

Lemma append_to_group (k v : string) (signals : Signals) :
  appended k v signals
    (match dict_get k signals with
     | Some l => dict_set k (l ++ [v])%list signals
     | None => dict_set k [v] signals
     end).
Proof.
  unfold appended.
  destruct (dict_get k signals) as [l|] eqn:E;
    (split; [apply dict_get_set_eq|]);
    (split; [intros k' Hk; now apply dict_get_set_neq|]);
    rewrite keys_dict_set; unfold dict_mem; now rewrite E.
Qed.

Lemma zone_types_mem (category : string) :
  existsb (String.eqb category) zone_types = true <-> In category zone_types.
Proof.
  rewrite existsb_exists. split.
  - intros (x & Hin & Hx). apply String.eqb_eq in Hx. now subst.
  - intros Hin. exists category. split; [assumption|apply String.eqb_refl].
Qed.

(** C2.  For a KPI variable whose bindExpression string is [s], with
    Category the final dot-segment of [s]: when Category is one of the five
    zone-scoped types and the alias resolution from basename + [.zone]
    returns [zone], the group key is Category[zone]; when Category is none
    of the five, the key is Category; in both cases the mangled output
    identifier of the basename is appended to the list of that key, a new
    key getting a one-element list at the end of the map, the other keys
    keeping their lists. *)
Theorem kpi_group_key (depth : nat) (tree var : Element) (name : string)
        (signals : Signals) (s : string) :
  attrib_string (find_child "bindExpression" var) = Ok s ->
  let category := last_item (split dot s) in
  let basename := basename_of name in
  let ident := replace dot underscore basename ++ "_y" in
  ((forall p seg, s = p ++ "." ++ seg -> ~ occurs_in "." seg -> category = seg) /\
   (~ occurs_in "." s -> category = s)) /\
  (In category zone_types ->
   forall zone,
     _get_final_value depth tree (basename ++ ".zone") = Ok zone ->
     exists signals',
       _process_KPI depth tree var name signals = (signals', Ok tt) /\
       appended (category ++ "[" ++ zone ++ "]") ident signals signals') /\
  (~ In category zone_types ->
   exists signals',
     _process_KPI depth tree var name signals = (signals', Ok tt) /\
     appended category ident signals signals').
Proof.
  intros Hs. cbv zeta. split; [split|split].
  - intros p seg -> Hseg. apply contains_false_iff in Hseg.
    now apply last_item_split.
  - intros Hno. apply contains_false_iff in Hno.
    change "." with (str dot) in Hno.
    now rewrite (split_no_sep _ _ Hno).
  - intros Hin zone Hz. apply zone_types_mem in Hin.
    eexists. unfold _process_KPI, mbind, lift, modify.
    rewrite Hs, Hin, Hz. simpl.
    split; [reflexivity|apply append_to_group].
  - intros Hin. rewrite <- zone_types_mem in Hin.
    apply not_true_is_false in Hin.
    eexists. unfold _process_KPI, mbind, lift, modify.
    rewrite Hs, Hin. simpl.
    split; [reflexivity|apply append_to_group].
Qed.

(** Two KPIs of one category are listed in document order. *)
Lemma kpi_document_order {float : Type} `{PyFloat float} :
  parse_XML 1 Samples.two_kpis
  = Ok (empty_instances, [("PowerDemand", ["x_y"; "y_y"])]).
Proof. vm_compute. reflexivity. Qed.

Lemma kpi_group_key_witness :
  exists signals',
    _process_KPI 3 Samples.plant
      (Samples.variable "zone1.KPIs"
         [Samples.bindExpression (Samples.kpi_type "AirZoneTemperature")])
      "zone1.KPIs" [] = (signals', Ok tt) /\
    appended "AirZoneTemperature[Core_ZONE]" "zone1_y" [] signals'.
Proof.
  edestruct (kpi_group_key 3 Samples.plant
               (Samples.variable "zone1.KPIs"
                  [Samples.bindExpression
                     (Samples.kpi_type "AirZoneTemperature")])
               "zone1.KPIs" [])
    as (_ & Hzone & _).
  - reflexivity.
  - apply (Hzone ltac:(simpl; tauto) "Core_ZONE"). reflexivity.
Defined.

(* ================================================================= *)
(** ** Wrapper synthesis *)

Section SynthesisFacts.
Context {float : Type} `{PyFloat float}.
Variable instances : Instances float.

Lemma extends_eq (code : list string) (L : locals) :
  model_code L = code -> extends code L.
Proof. intros <-. exists []. now rewrite app_nil_r. Qed.

Lemma extends_refl (L : locals) : extends (model_code L) L.
Proof. now apply extends_eq. Qed.

Lemma extends_emit (code : list string) (s : string) (L : locals) :
  extends code L -> extends code (emit s L).
Proof.
  intros [more E]. exists (more ++ [s])%list. simpl.
  now rewrite E, app_assoc.
Qed.

Lemma declare_input_ok (block : string) (L : locals) :
  In block (keys (Overwrite instances)) ->
  exists L', declare_input instances block L = Ok L' /\
             extends (model_code L) L' /\
             forall k, k = block \/ covered k L -> covered k L'.
Proof.
  intros Hin. destruct (dict_item_keys _ _ Hin) as [r Hr].
  unfold declare_input. rewrite Hr. simpl.
  unfold dict_item. rewrite !dict_get_set_eq. simpl.
  eexists. split; [reflexivity|]. split.
  - do 2 apply extends_emit. apply extends_eq. reflexivity.
  - unfold covered. simpl. intros k Hk. rewrite !dict_mem_set.
    destruct Hk as [->|[-> ->]]; rewrite ?String.eqb_refl, ?orb_true_r; auto.
Qed.

Lemma declare_inputs_ok (ks : list string) :
  incl ks (keys (Overwrite instances)) ->
  forall L, exists L',
      rfold (declare_input instances) ks L = Ok L' /\
      extends (model_code L) L' /\
      forall k, In k ks \/ covered k L -> covered k L'.
Proof.
  induction ks as [|k ks IH]; intros Hincl L; simpl.
  - exists L. split; [reflexivity|]. split; [apply extends_refl|].
    intros k [[]|Hk]; assumption.
  - destruct (@declare_input_ok k L) as (L1 & -> & [m1 E1] & Hc1);
      [apply Hincl; now left|].
    destruct (IH (fun x Hx => Hincl x (or_intror Hx)) L1)
      as (L2 & HL2 & [m2 E2] & Hc2).
    exists L2. simpl. split; [assumption|]. split.
    + exists (m1 ++ m2)%list. now rewrite E2, E1, app_assoc.
    + intros x [[->|Hx]|Hx]; apply Hc2; auto.
Qed.

Lemma declare_output_ok (i block : string) (L : locals) :
  In block (keys (instances_at i instances)) ->
  exists s, declare_output instances i block L = Ok (emit s L).
Proof.
  intros Hin. destruct (dict_item_keys _ _ Hin) as [r Hr].
  unfold declare_output. rewrite Hr. simpl. eexists. reflexivity.
Qed.

Lemma declare_outputs_ok (i : string) (ks : list string) :
  incl ks (keys (instances_at i instances)) ->
  forall L, exists L',
      rfold (declare_output instances i) ks L = Ok L' /\
      extends (model_code L) L' /\
      forall k, covered k L -> covered k L'.
Proof.
  induction ks as [|k ks IH]; intros Hincl L; simpl.
  - exists L. split; [reflexivity|]. split; [apply extends_refl|trivial].
  - destruct (@declare_output_ok i k L) as (s & ->); [apply Hincl; now left|].
    destruct (IH (fun x Hx => Hincl x (or_intror Hx)) (emit s L))
      as (L2 & HL2 & [m2 E2] & Hc2).
    exists L2. simpl. split; [assumption|]. split.
    + exists (s :: m2). rewrite E2. simpl. now rewrite <- app_assoc.
    + intros x Hx. apply Hc2. assumption.
Qed.

Lemma connect_ok (i : nat) (block : string) (L : locals) :
  covered block L ->
  exists L', connect instances (i, block) L = Ok L' /\
             extends (model_code L) L' /\
             forall k, covered k L -> covered k L'.
Proof.
  intros [Hu Ha]. unfold connect, dict_item, dict_mem in *.
  destruct (dict_get block (input_signals_wo_info L)); [|discriminate].
  destruct (dict_get block (input_activate_wo_info L)); [|discriminate].
  simpl. destruct (Nat.eqb i _); eexists; (split; [reflexivity|]);
    (split; [do 2 apply extends_emit; apply extends_eq; reflexivity|trivial]).
Qed.

Lemma connects_ok (l : list (nat * string)) :
  forall L, (forall ib, In ib l -> covered (snd ib) L) ->
  exists L', rfold (connect instances) l L = Ok L' /\
             extends (model_code L) L'.
Proof.
  induction l as [|[i block] l IH]; intros L Hc; cbn [rfold].
  - exists L. split; [reflexivity|apply extends_refl].
  - destruct (@connect_ok i block L) as (L1 & -> & [m1 E1] & Hc1);
      [apply (Hc (i, block)); now left|].
    destruct (IH L1) as (L2 & HL2 & [m2 E2]).
    { intros ib Hib. apply Hc1, Hc. now right. }
    exists L2. cbn [rbind]. split; [assumption|].
    exists (m1 ++ m2)%list. now rewrite E2, E1, app_assoc.
Qed.

Lemma join_cons_empty (h : string) (l : list string) :
  join "" (h :: l) = h ++ join "" l.
Proof.
  unfold join. destruct l; simpl; [now rewrite append_empty_r|reflexivity].
Qed.

End SynthesisFacts.

Lemma extends_trans (code : list string) (L L' : locals) :
  extends code L -> extends (model_code L) L' -> extends code L'.
Proof.
  intros [m E] [m' E']. exists (m ++ m')%list. now rewrite E', E, app_assoc.
Qed.

Lemma enumerate_snd {A} (l : list A) (ib : nat * A) :
  In ib (enumerate l) -> In (snd ib) l.
Proof. destruct ib as [i b]. apply in_combine_r. Qed.

(** The synthesis of a non-empty pair of maps never raises: it returns a
    text that starts with the model header. *)
Lemma create_wrapper_text {float : Type} `{PyFloat float}
      (model_path : string) (instances : Instances float) :
  length (Overwrite instances) + length (Read instances) <> 0 ->
  exists body,
    create_wrapper model_path instances =
    ([], Ok (Some (("model wrapped " ++ q ++ "Wrapped model of " ++ model_path
                    ++ q ++ nl ++ tb ++ "// Input overwrite" ++ nl) ++ body))).
Proof.
  intros Hlen. apply Nat.eqb_neq in Hlen.
  unfold create_wrapper. rewrite Hlen. cbv zeta.
  match goal with
  | |- context [rfold (declare_input instances) _ ?L] => set (L0 := L)
  end.
  destruct (declare_inputs_ok instances (incl_refl _) L0)
    as (L1 & -> & He1 & Hc1).
  cbn [rbind rfold].
  set (L1' := emit _ L1).
  destruct (declare_outputs_ok instances "Read" (incl_refl _) L1')
    as (L2 & -> & He2 & Hc2).
  cbn [rbind].
  destruct (declare_outputs_ok instances "Overwrite" (incl_refl _) L2)
    as (L3 & -> & He3 & Hc3).
  cbn [rbind].
  set (L3' := emit _ (emit _ L3)).
  assert (He : extends (model_code L0) L3').
  { do 2 apply extends_emit. eapply extends_trans; [|exact He3].
    eapply extends_trans; [|exact He2]. apply extends_emit. exact He1. }
  assert (Hfin : exists L4,
             (if Nat.eqb (length (Overwrite instances)) 0
              then Ok (emit (") " ++ q ++ "Original model without overwrites"
                             ++ q ++ ";" ++ nl) L3')
              else rfold (connect instances)
                         (enumerate (keys (Overwrite instances))) L3') = Ok L4
             /\ extends (model_code L0) L4).
  { destruct (Nat.eqb (length (Overwrite instances)) 0).
    - eexists. split; [reflexivity|]. now apply extends_emit.
    - destruct (@connects_ok float instances
                  (enumerate (keys (Overwrite instances))) L3')
        as (L4 & HL4 & He4).
      + intros ib Hib. apply enumerate_snd in Hib.
        apply Hc3, Hc2, Hc1. now left.
      + exists L4. split; [assumption|]. eapply extends_trans; eassumption. }
  destruct Hfin as (L4 & -> & [more E]). cbn [rbind].
  exists (join "" (more ++ [("end wrapped;" ++ nl)%string])%list).
  do 3 f_equal. cbn [emit model_code]. rewrite E.
  subst L0. cbn [model_code app]. rewrite join_cons_empty. reflexivity.
Qed.

(** C6.  [create_wrapper] returns None, with the one advisory warning and
    no text, exactly when the Overwrite map and the Read map are both
    empty; for every other pair of maps it raises nothing, warns of
    nothing and returns a text, which starts with the model header. *)
Theorem no_wrapper_iff_empty {float : Type} `{PyFloat float}
        (model_path : string) (instances : Instances float) :
  let both_empty := Overwrite instances = [] /\ Read instances = [] in
  let header := "model wrapped " ++ q ++ "Wrapped model of " ++ model_path
                ++ q ++ nl ++ tb ++ "// Input overwrite" ++ nl in
  (both_empty ->
   create_wrapper model_path instances = ([no_blocks_warning], Ok None)) /\
  (~ both_empty ->
   exists body,
     create_wrapper model_path instances = ([], Ok (Some (header ++ body)))) /\
  (snd (create_wrapper model_path instances) = Ok None <-> both_empty).
Proof.
  cbv zeta.
  assert (Hne : ~ (Overwrite instances = [] /\ Read instances = []) ->
                length (Overwrite instances) + length (Read instances) <> 0).
  { intros Hn Hl. apply Hn.
    destruct (Overwrite instances), (Read instances); simpl in Hl;
      try discriminate; auto. }
  assert (Hboth : Overwrite instances = [] /\ Read instances = [] ->
                  create_wrapper model_path instances
                  = ([no_blocks_warning], Ok None)).
  { intros [Ho Hr]. unfold create_wrapper. now rewrite Ho, Hr. }
  split; [assumption|]. split.
  - intros Hn. now apply create_wrapper_text, Hne.
  - split; [|intros Hb; now rewrite (Hboth Hb)].
    intros Hnone.
    destruct (Overwrite instances) eqn:Eo, (Read instances) eqn:Er; auto;
      exfalso;
      destruct (create_wrapper_text model_path instances) as [body Hb];
      try (rewrite Eo, Er; simpl; lia);
      rewrite Hb in Hnone; discriminate.
Qed.

Lemma no_wrapper_iff_empty_witness :
  let sensor : Instances string :=
    {| Overwrite := [];
       Read := [("sensor.T", {| Unit := "C"; Description := "zone temp";
                                Minimum := None; Maximum := None |})] |} in
  @create_wrapper string DecFloat.ops "Plant" empty_instances
  = ([no_blocks_warning], Ok None) /\
  (exists body,
      @create_wrapper string DecFloat.ops "Plant" sensor
      = ([], Ok (Some (("model wrapped " ++ q ++ "Wrapped model of Plant" ++ q
                        ++ nl ++ tb ++ "// Input overwrite" ++ nl) ++ body)))) /\
  snd (@create_wrapper string DecFloat.ops "Plant" sensor) <> Ok None.
Proof.
  intros sensor. split; [|split].
  - apply (@no_wrapper_iff_empty string DecFloat.ops "Plant" empty_instances).
    split; reflexivity.
  - apply (@no_wrapper_iff_empty string DecFloat.ops "Plant" sensor).
    intros [_ Hr]. discriminate Hr.
  - intros Hnone.
    apply (@no_wrapper_iff_empty string DecFloat.ops "Plant" sensor) in Hnone.
    destruct Hnone as [_ Hr]. discriminate Hr.
Defined.

(** C4.  Scenario A: with the single Overwrite entry [sys.ctrl] (Unit K,
    Description setpoint, bounds printed as 280.0 and 320.0), an empty Read
    map and the model [Plant], the wrapper text is [scenario_A_text]: it
    has exactly one input-signal declaration and one input-activation
    declaration, both for [sys_ctrl], exactly one output declaration, bound
    to [mod.sys.ctrl.y], and exactly one connection clause, closed by the
    comment that the model has overwrites. *)
Theorem scenario_A {float : Type} `{PyFloat float} (mini maxi : float) :
  float_repr mini = "280.0" ->
  float_repr maxi = "320.0" ->
  let instances :=
    {| Overwrite := [("sys.ctrl", {| Unit := "K"; Description := "setpoint";
                                     Minimum := Some mini;
                                     Maximum := Some maxi |})];
       Read := [] |} in
  let text := Samples.scenario_A_text in
  create_wrapper "Plant" instances = ([], Ok (Some text)) /\
  count_sub "Modelica.Blocks.Interfaces.RealInput " text = 1 /\
  count_sub ("Modelica.Blocks.Interfaces.RealInput sys_ctrl_u(unit=" ++ q ++ "K"
             ++ q ++ ", min=280.0, max=320.0) " ++ q ++ "setpoint" ++ q ++ ";")
            text = 1 /\
  count_sub "Modelica.Blocks.Interfaces.BooleanInput " text = 1 /\
  count_sub ("Modelica.Blocks.Interfaces.BooleanInput sys_ctrl_activate " ++ q
             ++ "Activation for setpoint" ++ q ++ ";") text = 1 /\
  count_sub "Modelica.Blocks.Interfaces.RealOutput " text = 1 /\
  count_sub ("Modelica.Blocks.Interfaces.RealOutput sys_ctrl_y(unit=" ++ q ++ "K"
             ++ q ++ ") = mod.sys.ctrl.y " ++ q ++ "setpoint" ++ q ++ ";")
            text = 1 /\
  count_sub "(uExt(y=" text = 1 /\
  count_sub ("sys.ctrl(uExt(y=sys_ctrl_u),activate(y=sys_ctrl_activate))) " ++ q
             ++ "Original model with overwrites" ++ q ++ ";" ++ nl
             ++ "end wrapped;" ++ nl) text = 1.
Proof.
  intros Hmin Hmax. cbv zeta. split.
  - unfold create_wrapper. cbn [Overwrite Read length Nat.add Nat.eqb keys map fst rfold].
    unfold declare_input. cbn [dict_item dict_get Overwrite String.eqb Ascii.eqb Bool.eqb rbind Minimum Maximum format_bound].
    rewrite Hmin, Hmax. vm_compute. reflexivity.
  - repeat split; vm_compute; reflexivity.
Qed.

Lemma scenario_A_witness :
  @create_wrapper string DecFloat.ops "Plant"
    {| Overwrite := [("sys.ctrl", {| Unit := "K"; Description := "setpoint";
                                     Minimum := Some "280.0";
                                     Maximum := Some "320.0" |})];
       Read := [] |}
  = ([], Ok (Some Samples.scenario_A_text)).
Proof.
  apply (@scenario_A string DecFloat.ops "280.0" "320.0"); reflexivity.
Defined.

Lemma mangling_not_injective_witness :
  replace dot underscore "sys.ctrl" <> "sys.ctrl" /\
  _make_var_name (replace dot underscore "sys.ctrl") "output" "" ""
  = _make_var_name "sys.ctrl" "output" "" "".
Proof.
  destruct (@mangling_not_injective string DecFloat.ops) as (_ & _ & Hpath & _).
  destruct (Hpath "sys.ctrl") as [Hne Heq].
  - apply contains_occurs. reflexivity.
  - split; [exact Hne|apply Heq].
Defined.

(* ================================================================= *)
(** ** More on alias resolution *)

Lemma second_piece_no_quote (s r : string) :
  item (split dquote s) 1 = Ok r -> contains q r = false.
Proof.
  intros Hr. apply second_piece_ok in Hr.
  destruct Hr as (a & _ & Hq & _). exact Hq.
Qed.

(** X1.  Whenever [_get_final_value] returns a value, an alias chain of at
    most [depth] lookups leads from [var] to a quote-containing string, the
    value is what follows the first double quote of that string (up to the
    next one or the end), and the value itself holds no double quote. *)
Theorem get_final_value_sound (depth : nat) (tree : Element) (var r : string) :
  _get_final_value depth tree var = Ok r ->
  exists names final,
    alias_chain tree var names final /\
    length names <= depth /\
    after_first_quote final r /\
    ~ occurs_in q r.
Proof.
  revert var. induction depth as [|depth IH]; intros var Hrun; [discriminate|].
  simpl in Hrun.
  destruct (first_named tree var) as [node|] eqn:Hn; [|discriminate].
  simpl in Hrun.
  destruct (attrib_string (find_child "bindExpression" node)) as [s|] eqn:Hs;
    [|discriminate].
  simpl in Hrun. fold q in Hrun.
  destruct (contains q s) eqn:Hq.
  - exists [var], s. split; [econstructor; eassumption|].
    split; [simpl; lia|]. split; [now apply second_piece_ok|].
    apply contains_false_iff. now apply second_piece_no_quote in Hrun.
  - destruct (IH _ Hrun) as (names & final & Hc & Hl & Ha & Hno).
    exists (var :: names), final.
    split; [econstructor 2; eassumption|]. split; [simpl; lia|]. now split.
Qed.

Lemma get_final_value_sound_witness :
  exists names final,
    alias_chain Samples.plant "zone1.zone" names final /\
    length names <= 5 /\
    after_first_quote final "Core_ZONE" /\
    ~ occurs_in q "Core_ZONE".
Proof.
  apply (@get_final_value_sound 5 Samples.plant "zone1.zone" "Core_ZONE").
  vm_compute. reflexivity.
Defined.

(** What [_get_final_value] can raise. *)
Lemma get_final_value_raises (depth : nat) (tree : Element)
        (var : string) (e : exn) :
  _get_final_value depth tree var = Raise e ->
  e = StopIteration \/ e = AttributeError \/ e = KeyError \/ e = RecursionError.
Proof.
  revert var. induction depth as [|depth IH]; intros var Hrun.
  - injection Hrun as <-. auto.
  - simpl in Hrun.
    destruct (first_named_cases tree var) as [[node Hn]|Hn]; rewrite Hn in Hrun;
      simpl in Hrun; [|injection Hrun as <-; auto].
    unfold attrib_string, dict_item in Hrun.
    destruct (find_child "bindExpression" node) as [b|];
      [|injection Hrun as <-; auto].
    destruct (dict_get "string" (attrib b)) as [s|];
      [|injection Hrun as <-; auto].
    simpl in Hrun. fold q in Hrun.
    destruct (contains q s) eqn:Hq; [|now apply IH in Hrun].
    destruct (second_piece_exists _ Hq) as (r & Hr & _). congruence.
Qed.

(** X2.  [_get_final_value] raises only StopIteration (a name on the chain
    names no node), AttributeError (a node without bindExpression child),
    KeyError (a bindExpression without string attribute) or RecursionError
    (depth exhausted): splitting a string that holds a double quote always
    gives a second piece. *)
Theorem get_final_value_exceptions (depth : nat) (tree : Element)
        (var : string) (e : exn) :
  _get_final_value depth tree var = Raise e ->
  e = StopIteration \/ e = AttributeError \/ e = KeyError \/ e = RecursionError.
Proof. intros Hrun. now apply get_final_value_raises in Hrun. Qed.

Lemma get_final_value_exceptions_witness :
  StopIteration = StopIteration \/ StopIteration = AttributeError \/
  StopIteration = KeyError \/ StopIteration = RecursionError.
Proof.
  apply (@get_final_value_exceptions 3 Samples.plant "nowhere.zone").
  vm_compute. reflexivity.
Defined.

Lemma get_final_value_along (tree : Element) (var target : string) (n : nat) :
  alias_path tree var n target ->
  forall depth,
    _get_final_value (n + depth) tree var = _get_final_value depth tree target.
Proof.
  induction 1 as [var | var node s n target Hn Hs Hq _ IH]; intros depth;
    [reflexivity|].
  simpl. rewrite Hn. simpl. rewrite Hs. simpl. fold q. rewrite Hq. apply IH.
Qed.

Lemma get_final_value_short (tree : Element) (var target : string) (n : nat) :
  alias_path tree var n target ->
  forall depth, depth <= n ->
    _get_final_value depth tree var = Raise RecursionError.
Proof.
  induction 1 as [var | var node s n target Hn Hs Hq _ IH];
    intros [|depth] Hd; try reflexivity; [lia|].
  simpl. rewrite Hn. simpl. rewrite Hs. simpl. fold q. rewrite Hq.
  apply IH. lia.
Qed.

(** X3.  An alias chain that runs into a cycle (from [var] some hops lead
    to a name from which one or more hops lead back to it) makes
    [_get_final_value] raise RecursionError, whatever the recursion depth
    allowed. *)
Theorem get_final_value_cycle (tree : Element) (var knot : string)
        (m n : nat) :
  alias_path tree var m knot ->
  alias_path tree knot (S n) knot ->
  forall depth, _get_final_value depth tree var = Raise RecursionError.
Proof.
  intros Hin Hcycle.
  assert (Hknot : forall depth,
             _get_final_value depth tree knot = Raise RecursionError).
  { induction depth as [depth IH] using lt_wf_ind.
    destruct (Nat.le_gt_cases depth (S n)) as [Hle|Hgt].
    - now apply (get_final_value_short Hcycle).
    - replace depth with (S n + (depth - S n)) by lia.
      rewrite (get_final_value_along Hcycle). apply IH. lia. }
  intros depth. destruct (Nat.le_gt_cases depth m) as [Hle|Hgt].
  - now apply (get_final_value_short Hin).
  - replace depth with (m + (depth - m)) by lia.
    rewrite (get_final_value_along Hin). apply Hknot.
Qed.

Lemma get_final_value_cycle_witness :
  _get_final_value 1000 Samples.cyclic "k.zone" = Raise RecursionError.
Proof.
  apply (@get_final_value_cycle Samples.cyclic "k.zone" "m.zone" 1 1).
  - eapply path_hop; [reflexivity..|]. apply path_here.
  - eapply path_hop; [reflexivity..|].
    eapply path_hop; [reflexivity..|]. apply path_here.
Defined.

(* ================================================================= *)
(** ** More on name mangling *)

Lemma replace_injective (a b : ascii) (s t : string) :
  contains (str b) s = false -> contains (str b) t = false ->
  replace a b s = replace a b t -> s = t.
Proof.
  revert t. induction s as [|c s IH]; intros [|d t] Hs Ht E; simpl in E;
    try discriminate; [reflexivity|].
  rewrite contains_char_cons in Hs, Ht.
  apply orb_false_iff in Hs as [Hc Hs]. apply orb_false_iff in Ht as [Hd Ht].
  injection E as Ehd Etl. f_equal; [|now apply IH].
  apply Ascii.eqb_neq in Hc, Hd.
  destruct (Ascii.eqb c a) eqn:Ec, (Ascii.eqb d a) eqn:Ed;
    try apply Ascii.eqb_eq in Ec; try apply Ascii.eqb_eq in Ed; congruence.
Qed.

Lemma append_cancel_r (s t u : string) : s ++ u = t ++ u -> s = t.
Proof.
  intros E.
  assert (Hlen : String.length s = String.length t).
  { apply (f_equal String.length) in E.
    assert (Happ : forall x y, String.length (x ++ y)
                               = String.length x + String.length y)
      by (induction x; simpl; intros; [|rewrite IHx]; reflexivity).
    rewrite !Happ in E. lia. }
  revert t E Hlen. induction s as [|c s IH]; intros [|d t] E Hlen;
    simpl in *; try discriminate; [reflexivity|].
  injection E as -> E. f_equal. apply IH; [assumption|lia].
Qed.

(** X4.  On paths without an underscore, name mangling is injective: two
    such paths with the same plain generated name (no attribute, no
    description), for the same known style, are the same path. *)
Theorem make_var_name_injective (p1 p2 style v : string) :
  ~ occurs_in "_" p1 -> ~ occurs_in "_" p2 ->
  _make_var_name p1 style "" "" = Ok v ->
  _make_var_name p2 style "" "" = Ok v ->
  p1 = p2.
Proof.
  intros H1 H2. apply contains_false_iff in H1, H2.
  unfold _make_var_name. simpl.
  destruct (String.eqb style "input_signal");
    [|destruct (String.eqb style "input_activate");
      [|destruct (String.eqb style "output"); [|discriminate]]];
    intros [= <-] [= E]; apply append_cancel_r in E;
    symmetry in E; now apply replace_injective in E.
Qed.

Lemma make_var_name_injective_witness : "sys.ctrl" = "sys.ctrl".
Proof.
  apply (@make_var_name_injective "sys.ctrl" "sys.ctrl" "output" "sys_ctrl_y");
    try (apply contains_false_iff; reflexivity); reflexivity.
Defined.

Lemma contains_char_app (c : ascii) (s t : string) :
  contains (str c) (s ++ t) = contains (str c) s || contains (str c) t.
Proof.
  induction s as [|d s IH]; [reflexivity|].
  cbn [append]. now rewrite !contains_char_cons, IH, orb_assoc.
Qed.

(** X5.  A plain generated name (no attribute, no description) holds no
    dot, whatever the path and for each of the three styles. *)
Theorem make_var_name_no_dot (path style v : string) :
  _make_var_name path style "" "" = Ok v -> ~ occurs_in "." v.
Proof.
  intros Hv. apply contains_false_iff.
  change "." with (str dot).
  unfold _make_var_name in Hv. simpl in Hv.
  destruct (String.eqb style "input_signal");
    [|destruct (String.eqb style "input_activate");
      [|destruct (String.eqb style "output"); [|discriminate]]];
    injection Hv as <-;
    rewrite contains_char_app, replace_no_occurrence by discriminate;
    reflexivity.
Qed.

Lemma make_var_name_no_dot_witness : ~ occurs_in "." "sys_ctrl_activate".
Proof.
  apply (@make_var_name_no_dot "sys.ctrl" "input_activate"). reflexivity.
Defined.

(** X6.  The basename of a name is the name without its last dot-segment:
    for a name [b.seg] whose [seg] holds no dot it is [b], and for a name
    without any dot it is the empty string. *)
Theorem basename_of_last_segment (name : string) :
  (forall b seg, name = b ++ "." ++ seg -> ~ occurs_in "." seg ->
                 basename_of name = b) /\
  (~ occurs_in "." name -> basename_of name = "").
Proof.
  split.
  - intros b seg -> Hseg. apply contains_false_iff in Hseg.
    now apply basename_of_app.
  - intros Hno. apply contains_false_iff in Hno.
    unfold basename_of, but_last. change "." with (str dot) in Hno.
    now rewrite (split_no_sep _ _ Hno).
Qed.

Lemma basename_of_last_segment_witness :
  basename_of "sys.ctrl.boptestOverwrite" = "sys.ctrl" /\
  basename_of "boptestRead" = "".
Proof.
  split.
  - apply (proj1 (basename_of_last_segment "sys.ctrl.boptestOverwrite")
             "sys.ctrl" "boptestOverwrite"); [reflexivity|].
    apply contains_false_iff. reflexivity.
  - apply (proj2 (basename_of_last_segment "boptestRead")).
    apply contains_false_iff. reflexivity.
Defined.

(* ================================================================= *)
(** ** More on the extraction of read and overwrite blocks *)

(** X7.  When the signal node is found but has no attributesValues child,
    or that child has no unit child, the extraction raises AttributeError;
    when the unit element has no string attribute, it raises KeyError; in
    each case the maps are left as they were. *)
Theorem readwrite_structure_failures {float : Type} `{PyFloat float}
        (tree : Element) (name : string) (flag : nat)
        (instances : Instances float) (node : Element) :
  first_named tree (basename_of name ++ suffix_of flag) = Ok node ->
  let run := _process_readwrite tree name flag instances in
  (find_child "attributesValues" node = None ->
   run = (instances, Raise AttributeError)) /\
  (forall av,
      find_child "attributesValues" node = Some av ->
      find_child "unit" av = None ->
      run = (instances, Raise AttributeError)) /\
  (forall av u,
      find_child "attributesValues" node = Some av ->
      find_child "unit" av = Some u ->
      dict_get "string" (attrib u) = None ->
      run = (instances, Raise KeyError)).
Proof.
  intros Hn. cbv zeta. rewrite process_readwrite_unfold.
  unfold record_read, suffix_of in *. rewrite Hn. simpl.
  unfold grandchild_string, find_in, attrib_string, dict_item.
  split; [|split].
  - intros ->. reflexivity.
  - intros av -> Hu. simpl. now rewrite Hu.
  - intros av u -> Hu Hs. simpl. rewrite Hu. now rewrite Hs.
Qed.

Lemma readwrite_structure_failures_witness :
  @_process_readwrite string DecFloat.ops
    (Samples.overwrite_block [Samples.variable "p.u" []])
    "p.boptestOverwrite" OVERWRITE empty_instances
  = (empty_instances, Raise AttributeError).
Proof.
  destruct (@readwrite_structure_failures string DecFloat.ops
              (Samples.overwrite_block [Samples.variable "p.u" []])
              "p.boptestOverwrite" OVERWRITE empty_instances
              (Samples.variable "p.u" []) eq_refl) as (Hav & _).
  apply Hav. reflexivity.
Defined.

Lemma grandchild_string_exceptions (a b : string) (node : Element) (e : exn) :
  grandchild_string a b node = Raise e -> e = AttributeError \/ e = KeyError.
Proof.
  unfold grandchild_string, find_in, attrib_string, dict_item.
  destruct (find_child a node) as [x|]; simpl; [|intros [= <-]; auto].
  destruct (find_child b x) as [y|]; [|intros [= <-]; auto].
  destruct (dict_get "string" (attrib y)); [discriminate|intros [= <-]; auto].
Qed.

Lemma attrib_string_exceptions (o : option Element) (e : exn) :
  attrib_string o = Raise e -> e = AttributeError \/ e = KeyError.
Proof.
  unfold attrib_string, dict_item. destruct o as [x|]; [|intros [= <-]; auto].
  destruct (dict_get "string" (attrib x)); [discriminate|intros [= <-]; auto].
Qed.

Lemma item_exceptions {A} (l : list A) (i : nat) (e : exn) :
  item l i = Raise e -> e = IndexError.
Proof. unfold item. destruct (nth_error l i); [discriminate|congruence]. Qed.

Lemma first_named_exceptions (tree : Element) (var : string) (e : exn) :
  first_named tree var = Raise e -> e = StopIteration.
Proof.
  destruct (first_named_cases tree var) as [[n Hn]|Hn]; rewrite Hn; congruence.
Qed.

(** X8.  The extraction of a read or overwrite block raises only
    StopIteration, AttributeError, KeyError, IndexError or ValueError, and
    ValueError only for a flag other than READ (a Read extraction never
    converts a bound). *)
Theorem readwrite_exceptions {float : Type} `{PyFloat float}
        (tree : Element) (name : string) (flag : nat)
        (instances instances' : Instances float) (e : exn) :
  _process_readwrite tree name flag instances = (instances', Raise e) ->
  (e = StopIteration \/ e = AttributeError \/ e = KeyError \/
   e = IndexError \/ e = ValueError) /\
  (flag = READ -> e <> ValueError).
Proof.
  intros Hrun. apply process_readwrite_raise in Hrun as [_ Hrec].
  unfold record_read in Hrec.
  destruct (first_named tree (basename_of name ++ _)) as [node|] eqn:En;
    simpl in Hrec;
    [|injection Hrec as <-; apply first_named_exceptions in En; subst;
      split; [auto|discriminate]].
  destruct (grandchild_string "attributesValues" "unit" node) as [su|] eqn:Esu;
    simpl in Hrec;
    [|injection Hrec as <-; apply grandchild_string_exceptions in Esu;
      split; [tauto|destruct Esu; subst; discriminate]].
  destruct (item (split dquote su) 1) as [unit|] eqn:Eu; simpl in Hrec;
    [|injection Hrec as <-; apply item_exceptions in Eu; subst;
      split; [auto 6|discriminate]].
  destruct (first_named tree (basename_of name ++ ".description"))
    as [dnode|] eqn:Ed; simpl in Hrec;
    [|injection Hrec as <-; apply first_named_exceptions in Ed; subst;
      split; [auto|discriminate]].
  destruct (attrib_string (find_child "bindExpression" dnode))
    as [sd|] eqn:Esd; simpl in Hrec;
    [|injection Hrec as <-; apply attrib_string_exceptions in Esd;
      split; [tauto|destruct Esd; subst; discriminate]].
  destruct (item (split dquote sd) 1) as [description|] eqn:Edesc;
    simpl in Hrec;
    [|injection Hrec as <-; apply item_exceptions in Edesc; subst;
      split; [auto 6|discriminate]].
  destruct (Nat.eqb flag READ) eqn:Ef; simpl in Hrec; [discriminate|].
  apply Nat.eqb_neq in Ef.
  assert (Hfloat : forall s x, to_float s = Raise x -> x = ValueError).
  { intros s x. unfold to_float. destruct (float_of_string s); congruence. }
  destruct (grandchild_string "attributesValues" "minValue" node)
    as [s1|] eqn:E1; simpl in Hrec;
    [|injection Hrec as <-; apply grandchild_string_exceptions in E1;
      split; [tauto|contradiction]].
  destruct (to_float s1) as [mini|] eqn:F1; simpl in Hrec;
    [|injection Hrec as <-; apply Hfloat in F1; subst;
      split; [auto 6|contradiction]].
  destruct (grandchild_string "attributesValues" "maxValue" node)
    as [s2|] eqn:E2; simpl in Hrec;
    [|injection Hrec as <-; apply grandchild_string_exceptions in E2;
      split; [tauto|contradiction]].
  destruct (to_float s2) as [maxi|] eqn:F2; simpl in Hrec; [discriminate|].
  injection Hrec as <-. apply Hfloat in F2. subst.
  split; [auto 6|contradiction].
Qed.

Lemma readwrite_exceptions_witness :
  (ValueError = StopIteration \/ ValueError = AttributeError \/
   ValueError = KeyError \/ ValueError = IndexError \/
   ValueError = ValueError) /\
  (OVERWRITE = READ -> ValueError <> ValueError).
Proof.
  apply (@readwrite_exceptions string DecFloat.ops
           (Samples.overwrite_block
              [Samples.signal_node (Samples.quoted "K") "lo" "2.0";
               Samples.description_node (Samples.quoted "d")])
           "p.boptestOverwrite" OVERWRITE empty_instances empty_instances).
  vm_compute. reflexivity.
Defined.

Lemma dict_set_idem {V} (k : string) (v : V) (d : dict V) :
  dict_set k v (dict_set k v d) = dict_set k v d.
Proof.
  induction d as [|[k' v'] d IH]; simpl.
  - now rewrite String.eqb_refl.
  - destruct (String.eqb k' k) eqn:E; simpl.
    + now rewrite String.eqb_refl.
    + now rewrite E, IH.
Qed.

(** X9.  Extracting the same variable a second time changes nothing: it
    has the same outcome and leaves the maps as the first extraction left
    them. *)
Theorem readwrite_idempotent {float : Type} `{PyFloat float}
        (tree : Element) (name : string) (flag : nat)
        (instances : Instances float) :
  let once := _process_readwrite tree name flag instances in
  _process_readwrite tree name flag (fst once) = once.
Proof.
  cbv zeta. rewrite !process_readwrite_unfold.
  destruct (record_read tree name flag) as [r|]; simpl; [|reflexivity].
  f_equal. unfold set_instance, label_of.
  destruct (Nat.eqb flag READ); simpl; now rewrite dict_set_idem.
Qed.

(* ================================================================= *)
(** ** More on signal groups and on the loop of parse_XML *)

(** A failing [_process_KPI] leaves the groups alone. *)
Lemma process_KPI_raise (depth : nat) (tree var : Element)
        (name : string) (signals signals' : Signals) (e : exn) :
  _process_KPI depth tree var name signals = (signals', Raise e) ->
  signals' = signals /\
  (e = StopIteration \/ e = AttributeError \/ e = KeyError \/
   e = RecursionError).
Proof.
  unfold _process_KPI, mbind, lift, modify.
  destruct (attrib_string (find_child "bindExpression" var)) as [s|] eqn:Es.
  - destruct (existsb _ zone_types).
    + destruct (_get_final_value depth tree _) as [z|x] eqn:Ez; simpl.
      * discriminate.
      * intros [= <- <-]. split; [reflexivity|].
        now apply get_final_value_raises in Ez.
    + simpl. discriminate.
  - intros [= <- <-]. split; [reflexivity|].
    apply attrib_string_exceptions in Es. tauto.
Qed.

(** X10.  When [_process_KPI] raises, the signal groups are left as they
    were, and the exception is one of StopIteration, AttributeError,
    KeyError and RecursionError. *)
Theorem kpi_failure_unchanged (depth : nat) (tree var : Element)
        (name : string) (signals signals' : Signals) (e : exn) :
  _process_KPI depth tree var name signals = (signals', Raise e) ->
  signals' = signals /\
  (e = StopIteration \/ e = AttributeError \/ e = KeyError \/
   e = RecursionError).
Proof. intros Hrun. now apply process_KPI_raise in Hrun. Qed.

Lemma kpi_failure_unchanged_witness :
  [("PowerDemand", ["x_y"])] = [("PowerDemand", ["x_y"])] /\
  (RecursionError = StopIteration \/ RecursionError = AttributeError \/
   RecursionError = KeyError \/ RecursionError = RecursionError).
Proof.
  apply (@kpi_failure_unchanged 7 Samples.cyclic
           (Samples.variable "k.KPIs"
              [Samples.bindExpression (Samples.kpi_type "AirZoneTemperature")])
           "k.KPIs" [("PowerDemand", ["x_y"])]).
  vm_compute. reflexivity.
Defined.

Lemma kpi_success_appended (depth : nat) (tree var : Element) (name : string)
      (signals signals' : Signals) :
  _process_KPI depth tree var name signals = (signals', Ok tt) ->
  exists key,
    appended key (replace dot underscore (basename_of name) ++ "_y")
             signals signals'.
Proof.
  unfold _process_KPI, mbind, lift, modify.
  destruct (attrib_string (find_child "bindExpression" var)) as [s|];
    [|discriminate].
  destruct (existsb _ zone_types).
  - destruct (_get_final_value depth tree _) as [z|]; simpl; [|discriminate].
    intros [= <-]. eexists. apply append_to_group.
  - simpl. intros [= <-]. eexists. apply append_to_group.
Qed.

Section Loop.
Context {float : Type} `{PyFloat float}.
Variables (depth : nat) (tree : Element).

Lemma for_each_app {S A} (body : A -> M S unit) (l1 l2 : list A) (s : S) :
  for_each body (l1 ++ l2) s =
  match for_each body l1 s with
  | (s', Ok _) => for_each body l2 s'
  | (s', Raise e) => (s', Raise e)
  end.
Proof.
  revert s. induction l1 as [|a l1 IH]; intros s; [reflexivity|].
  simpl. unfold mbind. destruct (body a s) as [s1 [[]|e]]; [apply IH|reflexivity].
Qed.

(** What one turn of the loop has done when it raised nothing. *)
Lemma parse_var_ok (var : Element) (st st' : Instances float * Signals) :
  parse_var depth tree var st = (st', Ok tt) ->
  exists name,
    get "name" var = Some name /\
    ((read_marked name /\
      exists r, record_read tree name READ = Ok r /\
                st' = (set_instance "Read" (basename_of name) r (fst st), snd st)) \/
     (overwrite_marked name /\
      exists r, record_read tree name OVERWRITE = Ok r /\
                st' = (set_instance "Overwrite" (basename_of name) r (fst st),
                       snd st)) \/
     (kpi_marked name /\ fst st' = fst st /\
      exists key, appended key (replace dot underscore (basename_of name) ++ "_y")
                           (snd st) (snd st')) \/
     (~ occurs_in "boptestRead" name /\ ~ occurs_in "boptestOverwrite" name /\
      ~ occurs_in "KPIs" name /\ st' = st)).
Proof.
  unfold parse_var, flag_of.
  destruct (get "name" var) as [name|]; [|discriminate].
  intros Hrun. exists name. split; [reflexivity|].
  destruct (contains "boptestRead" name) eqn:Hr.
  { left. apply contains_occurs in Hr. split; [exact Hr|].
    simpl in Hrun. unfold on_fst in Hrun.
    rewrite process_readwrite_unfold in Hrun.
    destruct (record_read tree name READ) as [r|]; [|discriminate].
    injection Hrun as <-. now exists r. }
  apply contains_false_iff in Hr.
  destruct (contains "boptestOverwrite" name) eqn:Ho.
  { right; left. apply contains_occurs in Ho. split; [now split|].
    simpl in Hrun. unfold on_fst in Hrun.
    rewrite process_readwrite_unfold in Hrun.
    destruct (record_read tree name OVERWRITE) as [r|]; [|discriminate].
    injection Hrun as <-. now exists r. }
  apply contains_false_iff in Ho.
  destruct (contains "KPIs" name) eqn:Hk.
  { right; right; left. apply contains_occurs in Hk.
    split; [now repeat split|].
    simpl in Hrun. unfold on_snd in Hrun.
    destruct (_process_KPI depth tree var name (snd st)) as [sig' [[]|]] eqn:Ek;
      [|discriminate].
    injection Hrun as <-. split; [reflexivity|].
    now apply kpi_success_appended in Ek. }
  apply contains_false_iff in Hk.
  right; right; right. injection Hrun as <-. auto.
Qed.

(** A turn of the loop that raises leaves the state as it was. *)
Lemma parse_var_raise (var : Element) (st st' : Instances float * Signals)
      (e : exn) :
  parse_var depth tree var st = (st', Raise e) -> st' = st.
Proof.
  unfold parse_var.
  destruct (get "name" var) as [name|]; [|intros [= <-]; reflexivity].
  destruct (flag_of name) as [flag|]; [|discriminate].
  destruct (Nat.eqb flag KPI).
  - unfold on_snd.
    destruct (_process_KPI depth tree var name (snd st)) as [sig' [[]|x]] eqn:Ek;
      [discriminate|].
    intros [= <- <-]. apply process_KPI_raise in Ek as [-> _].
    now destruct st.
  - unfold on_fst. rewrite process_readwrite_unfold.
    destruct (record_read tree name flag); [discriminate|].
    intros [= <- <-]. now destruct st.
Qed.

Lemma parse_XML_state_split (before after : list Element) (v : Element)
      (st st' : Instances float * Signals) (e : exn) :
  iter_tag "variable" tree = (before ++ v :: after)%list ->
  for_each (parse_var depth tree) before (empty_instances, []) = (st, Ok tt) ->
  parse_var depth tree v st = (st', Raise e) ->
  parse_XML_state depth tree = (st, Raise e).
Proof.
  intros Hvars Hbefore Hv. unfold parse_XML_state.
  rewrite Hvars, for_each_app, Hbefore. simpl. unfold mbind.
  rewrite Hv. now rewrite (parse_var_raise _ _ Hv).
Qed.

End Loop.

(** X11.  [parse_XML] stops at the first variable element, in document
    order, whose processing raises: it raises that exception, the maps hold
    what the variables before it put there and nothing of the failing one,
    and the variables after it are not looked at. *)
Theorem parse_XML_first_failure {float : Type} `{PyFloat float}
        (depth : nat) (tree : Element) (before after : list Element)
        (v : Element) (st st' : Instances float * Signals) (e : exn) :
  iter_tag "variable" tree = (before ++ v :: after)%list ->
  for_each (parse_var depth tree) before (empty_instances, []) = (st, Ok tt) ->
  parse_var depth tree v st = (st', Raise e) ->
  parse_XML depth tree = Raise e /\
  parse_XML_state depth tree = (st, Raise e).
Proof.
  intros Hvars Hbefore Hv.
  pose proof (parse_XML_state_split _ _ _ _ _ Hvars Hbefore Hv) as Hs.
  split; [|exact Hs]. unfold parse_XML. now rewrite Hs.
Qed.

(** X12.  A variable element without a name attribute makes [parse_XML]
    raise TypeError, once the variable elements before it have been
    processed without an exception. *)
Theorem parse_XML_unnamed_variable {float : Type} `{PyFloat float}
        (depth : nat) (tree : Element) (before after : list Element)
        (v : Element) (st : Instances float * Signals) :
  iter_tag "variable" tree = (before ++ v :: after)%list ->
  for_each (parse_var depth tree) before (empty_instances, []) = (st, Ok tt) ->
  get "name" v = None ->
  parse_XML depth tree = Raise TypeError.
Proof.
  intros Hvars Hbefore Hname.
  pose proof (parse_var_unnamed depth tree v st Hname) as Hv.
  unfold parse_XML.
  now rewrite (parse_XML_state_split _ _ _ _ _ Hvars Hbefore Hv).
Qed.

Lemma parse_XML_first_failure_witness :
  @parse_XML string DecFloat.ops 3 Samples.failing = Raise StopIteration /\
  @parse_XML_state string DecFloat.ops 3 Samples.failing
  = (Samples.sensor_read, Raise StopIteration).
Proof.
  apply (@parse_XML_first_failure string DecFloat.ops 3 Samples.failing
           Samples.read_block
           [Samples.variable "zone1.KPIs"
              [Samples.bindExpression (Samples.kpi_type "PowerDemand")]]
           (Samples.variable "p.boptestOverwrite" [])
           Samples.sensor_read Samples.sensor_read StopIteration).
  - vm_compute. reflexivity.
  - vm_compute. reflexivity.
  - vm_compute. reflexivity.
Defined.

Lemma parse_XML_unnamed_variable_witness :
  @parse_XML string DecFloat.ops 3 Samples.unnamed = Raise TypeError.
Proof.
  apply (@parse_XML_unnamed_variable string DecFloat.ops 3 Samples.unnamed
           Samples.read_block
           [Samples.variable "x.KPIs"
              [Samples.bindExpression (Samples.kpi_type "PowerDemand")]]
           (Elem "variable" [("id", "7")] [])
           Samples.sensor_read).
  - vm_compute. reflexivity.
  - vm_compute. reflexivity.
  - reflexivity.
Defined.

Section DictMore.
Variable V : Type.
Implicit Types (d : dict V) (k : string) (v : V).

Lemma dict_get_some_keys k v d : dict_get k d = Some v -> In k (keys d).
Proof.
  induction d as [|[k' v'] d IH]; simpl; [discriminate|].
  destruct (String.eqb k' k) eqn:E; [|auto].
  apply String.eqb_eq in E. auto.
Qed.

Lemma dict_mem_keys k d : dict_mem k d = true <-> In k (keys d).
Proof.
  unfold dict_mem. split.
  - destruct (dict_get k d) eqn:E; [|discriminate].
    intros _. eapply dict_get_some_keys; eassumption.
  - intros Hin. destruct (dict_get_keys _ _ Hin) as [v ->]. reflexivity.
Qed.

Lemma in_keys_dict_set k k0 v d :
  In k (keys (dict_set k0 v d)) <-> k = k0 \/ In k (keys d).
Proof.
  rewrite keys_dict_set. destruct (dict_mem k0 d) eqn:E.
  - apply dict_mem_keys in E. split; [auto|intros [->|]; auto].
  - rewrite in_app_iff. simpl. intuition congruence.
Qed.

Lemma dict_get_set_cases k k0 v r d :
  dict_get k (dict_set k0 v d) = Some r ->
  (k = k0 /\ r = v) \/ (k <> k0 /\ dict_get k d = Some r).
Proof.
  destruct (string_dec k k0) as [->|Hne].
  - rewrite dict_get_set_eq. intros [= <-]. auto.
  - rewrite dict_get_set_neq by assumption. auto.
Qed.

Lemma keys_nil d : keys d = [] -> d = [].
Proof. destruct d; [reflexivity|discriminate]. Qed.

End DictMore.

Lemma from_vars_cons (a : Element) (l : list Element) (P : string -> Prop)
      (k : string) :
  from_vars (a :: l) P k <-> from_vars [a] P k \/ from_vars l P k.
Proof.
  unfold from_vars. split.
  - intros (var & name & [Ha|Hin] & Hrest).
    + left. exists var, name. simpl. tauto.
    + right. exists var, name. tauto.
  - intros [(var & name & [Ha|[]] & Hrest)|(var & name & Hin & Hrest)].
    + exists var, name. simpl. tauto.
    + exists var, name. simpl. tauto.
Qed.

Lemma from_vars_nil (P : string -> Prop) (k : string) : ~ from_vars [] P k.
Proof. intros (var & name & [] & _). Qed.

Lemma from_vars_incl (l vs : list Element) (P : string -> Prop) (k : string) :
  incl l vs -> from_vars l P k -> from_vars vs P k.
Proof. intros Hi (var & name & Hin & Hrest). exists var, name. auto. Qed.

Section LoopInvariants.
Context {float : Type} `{PyFloat float}.
Variables (depth : nat) (tree : Element).

Lemma for_each_cons_ok (a : Element) (l : list Element)
      (st st' : Instances float * Signals) :
  for_each (parse_var depth tree) (a :: l) st = (st', Ok tt) ->
  exists st1, parse_var depth tree a st = (st1, Ok tt) /\
              for_each (parse_var depth tree) l st1 = (st', Ok tt).
Proof.
  simpl. unfold mbind.
  destruct (parse_var depth tree a st) as [st1 [[]|e]]; [|discriminate].
  intros Hl. now exists st1.
Qed.

Lemma for_each_ok_unit (l : list Element) (st st' : Instances float * Signals)
      (u : unit) :
  for_each (parse_var depth tree) l st = (st', Ok u) ->
  for_each (parse_var depth tree) l st = (st', Ok tt).
Proof. now destruct u. Qed.

Lemma parse_var_keys (a : Element) (st st1 : Instances float * Signals) :
  parse_var depth tree a st = (st1, Ok tt) ->
  (forall k, In k (keys (Read (fst st1))) <->
             In k (keys (Read (fst st))) \/ from_vars [a] read_marked k) /\
  (forall k, In k (keys (Overwrite (fst st1))) <->
             In k (keys (Overwrite (fst st))) \/
             from_vars [a] overwrite_marked k).
Proof.
  intros Hrun. destruct (parse_var_ok _ _ _ _ Hrun) as (name & Hname & Hcase).
  assert (Hone : forall P k, from_vars [a] P k <-> P name /\ basename_of name = k).
  { intros P k. unfold from_vars. split.
    - intros (var & name' & [Ha|[]] & Hn & HP & Hb). subst var.
      rewrite Hname in Hn. injection Hn as <-. now split.
    - intros [HP Hb]. exists a, name. simpl. tauto. }
  unfold read_marked, overwrite_marked, kpi_marked in *.
  destruct Hcase
    as [(Hm & r & _ & ->)|[(Hm & r & _ & ->)|[(Hm & Hfst & _)
                                             |(Hr & Ho & Hk & ->)]]];
    simpl; split; intros k; rewrite Hone; try rewrite in_keys_dict_set;
    try rewrite Hfst; split; intros; try tauto;
    repeat match goal with
           | Hx : _ \/ _ |- _ => destruct Hx
           | Hx : _ /\ _ |- _ => destruct Hx
           end; subst; tauto.
Qed.

Lemma loop_keys (l : list Element) :
  forall st st',
    for_each (parse_var depth tree) l st = (st', Ok tt) ->
    (forall k, In k (keys (Read (fst st'))) <->
               In k (keys (Read (fst st))) \/ from_vars l read_marked k) /\
    (forall k, In k (keys (Overwrite (fst st'))) <->
               In k (keys (Overwrite (fst st))) \/
               from_vars l overwrite_marked k).
Proof.
  induction l as [|a l IH]; intros st st' Hrun.
  - injection Hrun as <-. split; intros k;
      (split; [auto|intros [Hk|Hk]; [assumption|now apply from_vars_nil in Hk]]).
  - apply for_each_cons_ok in Hrun as (st1 & Ha & Hl).
    destruct (parse_var_keys _ _ Ha) as [Hr1 Ho1].
    destruct (IH _ _ Hl) as [Hr Ho].
    split; intros k; rewrite from_vars_cons.
    + rewrite Hr, Hr1. tauto.
    + rewrite Ho, Ho1. tauto.
Qed.

Lemma parse_var_bounds (a : Element) (st st1 : Instances float * Signals) :
  parse_var depth tree a st = (st1, Ok tt) ->
  bounds_by_map (fst st) -> bounds_by_map (fst st1).
Proof.
  intros Hrun [Hread Hover].
  destruct (parse_var_ok _ _ _ _ Hrun) as (name & _ & Hcase).
  destruct Hcase as [(_ & r & Hr & ->)|[(_ & r & Hr & ->)|[(_ & -> & _)|Hm]]];
    try (split; assumption).
  - apply record_read_ok in Hr
      as (node & su & dnode & sd & _ & _ & _ & _ & _ & _ & Hnone & _).
    split; [|exact Hover]. simpl. intros k r' Hk.
    apply dict_get_set_cases in Hk as [[_ ->]|[_ Hk]]; [now apply Hnone|eauto].
  - apply record_read_ok in Hr
      as (node & su & dnode & sd & _ & _ & _ & _ & _ & _ & _ & Hsome).
    destruct Hsome as (smin & smax & mini & maxi & _ & _ & _ & _ & Hmin & Hmax);
      [discriminate|].
    split; [exact Hread|]. simpl. intros k r' Hk.
    apply dict_get_set_cases in Hk as [[_ ->]|[_ Hk]]; [|eauto].
    rewrite Hmin, Hmax. split; discriminate.
  - destruct Hm as (_ & _ & _ & ->). now split.
Qed.

Lemma loop_bounds (l : list Element) :
  forall st st',
    for_each (parse_var depth tree) l st = (st', Ok tt) ->
    bounds_by_map (fst st) -> bounds_by_map (fst st').
Proof.
  induction l as [|a l IH]; intros st st' Hrun Hb.
  - now injection Hrun as <-.
  - apply for_each_cons_ok in Hrun as (st1 & Ha & Hl).
    eapply IH; [eassumption|]. eapply parse_var_bounds; eassumption.
Qed.

End LoopInvariants.

Section GroupInvariants.
Context {float : Type} `{PyFloat float}.
Variables (depth : nat) (tree : Element).

Lemma parse_var_groups (vs : list Element) (a : Element)
      (st st1 : Instances float * Signals) :
  In a vs ->
  parse_var depth tree a st = (st1, Ok tt) ->
  groups_from vs (snd st) -> groups_from vs (snd st1).
Proof.
  intros Hin Hrun Hg.
  destruct (parse_var_ok _ _ _ _ Hrun) as (name & Hname & Hcase).
  destruct Hcase
    as [(_ & r & _ & ->)|[(_ & r & _ & ->)|[(Hm & _ & key & Hget & Hother & _)
                                           |(_ & _ & _ & ->)]]];
    try exact Hg.
  intros k l Hk. destruct (string_dec k key) as [->|Hne].
  - rewrite Hget in Hk. injection Hk as <-.
    assert (Hnew : exists b, from_vars vs kpi_marked b /\
                             replace dot underscore (basename_of name) ++ "_y"
                             = replace dot underscore b ++ "_y").
    { exists (basename_of name). split; [|reflexivity].
      exists a, name. auto. }
    destruct (dict_get key (snd st)) as [old|] eqn:Eold.
    + destruct (Hg _ _ Eold) as [_ Hall]. split.
      * intros E. apply app_eq_nil in E as [_ E]. discriminate.
      * intros v Hv. apply in_app_iff in Hv as [Hv|[<-|[]]]; auto.
    + split; [discriminate|]. intros v [<-|[]]. exact Hnew.
  - rewrite (Hother _ Hne) in Hk. eauto.
Qed.

Lemma parse_var_listed (a : Element) (st st1 : Instances float * Signals) :
  parse_var depth tree a st = (st1, Ok tt) ->
  (forall v, listed v (snd st) -> listed v (snd st1)) /\
  (forall b, from_vars [a] kpi_marked b ->
             listed (replace dot underscore b ++ "_y") (snd st1)).
Proof.
  intros Hrun.
  destruct (parse_var_ok _ _ _ _ Hrun) as (name & Hname & Hcase).
  assert (Hone : forall b, from_vars [a] kpi_marked b ->
                           kpi_marked name /\ basename_of name = b).
  { intros b (var & name' & [Ha|[]] & Hn & HP & Hb). subst var.
    rewrite Hname in Hn. injection Hn as <-. now split. }
  unfold kpi_marked in Hone.
  destruct Hcase
    as [(Hm & r & _ & ->)|[(Hm & r & _ & ->)|[(Hm & _ & key & Hget & Hother & _)
                                             |(Hr & Ho & Hk & ->)]]];
    try (split; [trivial|]; intros b Hb; apply Hone in Hb;
         unfold read_marked, overwrite_marked in *; tauto).
  split.
  - intros v (k & l & Hk & Hv). destruct (string_dec k key) as [->|Hne].
    + exists key. rewrite Hget, Hk. eexists. split; [reflexivity|].
      apply in_app_iff. now left.
    + exists k, l. now rewrite (Hother _ Hne).
  - intros b Hb. apply Hone in Hb as [_ <-].
    exists key. rewrite Hget. eexists. split; [reflexivity|].
    destruct (dict_get key (snd st)); [apply in_app_iff; right|]; now left.
Qed.

Lemma loop_groups (vs l : list Element) :
  incl l vs ->
  forall st st',
    for_each (parse_var depth tree) l st = (st', Ok tt) ->
    groups_from vs (snd st) -> groups_from vs (snd st').
Proof.
  induction l as [|a l IH]; intros Hincl st st' Hrun Hg.
  - now injection Hrun as <-.
  - apply for_each_cons_ok in Hrun as (st1 & Ha & Hl).
    apply (IH (fun x Hx => Hincl x (or_intror Hx)) _ _ Hl).
    eapply parse_var_groups; [|eassumption|assumption].
    apply Hincl. now left.
Qed.

Lemma loop_listed (l : list Element) :
  forall st st',
    for_each (parse_var depth tree) l st = (st', Ok tt) ->
    (forall v, listed v (snd st) -> listed v (snd st')) /\
    (forall b, from_vars l kpi_marked b ->
               listed (replace dot underscore b ++ "_y") (snd st')).
Proof.
  induction l as [|a l IH]; intros st st' Hrun.
  - injection Hrun as <-. split; [trivial|].
    intros b Hb. now apply from_vars_nil in Hb.
  - apply for_each_cons_ok in Hrun as (st1 & Ha & Hl).
    destruct (parse_var_listed _ _ Ha) as [Hkeep1 Hnew1].
    destruct (IH _ _ Hl) as [Hkeep Hnew].
    split; [auto|]. intros b Hb. apply from_vars_cons in Hb as [Hb|Hb]; auto.
Qed.

Lemma parse_XML_ok_state (instances : Instances float) (signals : Signals) :
  parse_XML depth tree = Ok (instances, signals) ->
  for_each (parse_var depth tree) (iter_tag "variable" tree)
           (empty_instances, []) = ((instances, signals), Ok tt).
Proof.
  unfold parse_XML, parse_XML_state.
  destruct (for_each _ _ _) as [st [[]|e]]; [|discriminate].
  now intros [= ->].
Qed.

End GroupInvariants.

(** X13.  When [parse_XML] returns, the keys of the Read map are exactly
    the basenames of the variable elements whose name contains
    [boptestRead], and the keys of the Overwrite map exactly the basenames
    of those whose name contains [boptestOverwrite] and not [boptestRead]:
    no other variable leaves an entry, and none of these is left out. *)
Theorem parse_XML_keys {float : Type} `{PyFloat float} (depth : nat)
        (tree : Element) (instances : Instances float) (signals : Signals) :
  parse_XML depth tree = Ok (instances, signals) ->
  (forall k, In k (keys (Read instances)) <->
             from_variable tree read_marked k) /\
  (forall k, In k (keys (Overwrite instances)) <->
             from_variable tree overwrite_marked k).
Proof.
  intros Hrun. apply parse_XML_ok_state in Hrun.
  apply loop_keys in Hrun as [Hr Ho]. simpl in Hr, Ho.
  unfold from_variable. split; intros k; [rewrite Hr|rewrite Ho]; tauto.
Qed.

Lemma parse_XML_keys_witness :
  (forall k, In k ["sensor.T"] <-> from_variable Samples.plant read_marked k) /\
  (forall k, In k ["sys.ctrl"] <->
             from_variable Samples.plant overwrite_marked k).
Proof.
  apply (@parse_XML_keys string DecFloat.ops 3 Samples.plant
           Samples.plant_instances Samples.plant_signals).
  vm_compute. reflexivity.
Defined.

(** X14.  In the maps [parse_XML] returns, every Read record has neither
    Minimum nor Maximum and every Overwrite record has both. *)
Theorem parse_XML_bounds {float : Type} `{PyFloat float} (depth : nat)
        (tree : Element) (instances : Instances float) (signals : Signals) :
  parse_XML depth tree = Ok (instances, signals) ->
  bounds_by_map instances.
Proof.
  intros Hrun. apply parse_XML_ok_state in Hrun.
  apply loop_bounds in Hrun; [exact Hrun|]. split; discriminate.
Qed.

Lemma parse_XML_bounds_witness : bounds_by_map Samples.plant_instances.
Proof.
  apply (@parse_XML_bounds string DecFloat.ops 3 Samples.plant
           Samples.plant_instances Samples.plant_signals).
  vm_compute. reflexivity.
Defined.

(** X15.  In the signal groups [parse_XML] returns, every list is
    non-empty and holds only output identifiers (mangled basename and
    [_y]) of variable elements whose name contains [KPIs] and neither of
    the two block markers; and the identifier of every such variable
    stands in some group. *)
Theorem parse_XML_groups {float : Type} `{PyFloat float} (depth : nat)
        (tree : Element) (instances : Instances float) (signals : Signals) :
  parse_XML depth tree = Ok (instances, signals) ->
  groups_from (iter_tag "variable" tree) signals /\
  (forall b, from_variable tree kpi_marked b ->
             listed (replace dot underscore b ++ "_y") signals).
Proof.
  intros Hrun. apply parse_XML_ok_state in Hrun. split.
  - eapply loop_groups in Hrun; [exact Hrun|apply incl_refl|].
    intros k l Hk. discriminate.
  - apply loop_listed in Hrun as [_ Hnew]. exact Hnew.
Qed.

Lemma parse_XML_groups_witness :
  groups_from (iter_tag "variable" Samples.plant) Samples.plant_signals /\
  (forall b, from_variable Samples.plant kpi_marked b ->
             listed (replace dot underscore b ++ "_y") Samples.plant_signals).
Proof.
  apply (@parse_XML_groups string DecFloat.ops 3 Samples.plant
           Samples.plant_instances Samples.plant_signals).
  vm_compute. reflexivity.
Defined.

(** X16.  For the maps [parse_XML] returns, [create_wrapper] returns None
    exactly when no variable element of the document has a name containing
    [boptestRead] or [boptestOverwrite]; KPI variables alone give no
    wrapper. *)
Theorem wrapper_none_iff_unmarked {float : Type} `{PyFloat float}
        (depth : nat) (tree : Element) (instances : Instances float)
        (signals : Signals) (model_path : string) :
  parse_XML depth tree = Ok (instances, signals) ->
  (snd (create_wrapper model_path instances) = Ok None <->
   forall k, ~ from_variable tree read_marked k /\
             ~ from_variable tree overwrite_marked k).
Proof.
  intros Hrun. apply parse_XML_ok_state in Hrun.
  apply loop_keys in Hrun as [Hr Ho]. simpl in Hr, Ho.
  unfold from_variable. split.
  - intros Hnone.
    assert (Hempty : Overwrite instances = [] /\ Read instances = []).
    { destruct (Overwrite instances) eqn:Eo, (Read instances) eqn:Er; auto;
        exfalso;
        destruct (create_wrapper_text model_path instances) as [body Hb];
        try (rewrite Eo, Er; simpl; lia);
        rewrite Hb in Hnone; discriminate. }
    destruct Hempty as [Eo Er]. rewrite Eo in Ho. rewrite Er in Hr.
    intros k. split; intros Hk.
    + apply (proj2 (Hr k)). now right.
    + apply (proj2 (Ho k)). now right.
  - intros Hno.
    assert (Er : Read instances = []).
    { apply keys_nil. destruct (keys (Read instances)) as [|k ks] eqn:E;
        [reflexivity|].
      exfalso. destruct (proj1 (Hr k)) as [[]|Hk]; [now left|].
      now apply (proj1 (Hno k)). }
    assert (Eo : Overwrite instances = []).
    { apply keys_nil. destruct (keys (Overwrite instances)) as [|k ks] eqn:E;
        [reflexivity|].
      exfalso. destruct (proj1 (Ho k)) as [[]|Hk]; [now left|].
      now apply (proj2 (Hno k)). }
    unfold create_wrapper. now rewrite Er, Eo.
Qed.

Lemma wrapper_none_iff_unmarked_witness :
  snd (@create_wrapper string DecFloat.ops "Plant" empty_instances) = Ok None <->
  forall k, ~ from_variable Samples.two_kpis read_marked k /\
            ~ from_variable Samples.two_kpis overwrite_marked k.
Proof.
  apply (@wrapper_none_iff_unmarked string DecFloat.ops 1 Samples.two_kpis
           empty_instances [("PowerDemand", ["x_y"; "y_y"])] "Plant").
  vm_compute. reflexivity.
Defined.

(* ================================================================= *)
(** ** The text of the wrapper *)

Lemma join_empty_snoc (l : list string) (s : string) :
  join "" (l ++ [s]) = join "" l ++ s.
Proof.
  induction l as [|x l IH]; simpl.
  - reflexivity.
  - change (join "" (x :: l ++ [s]) = join "" (x :: l) ++ s).
    now rewrite !join_cons_empty, IH, append_assoc.
Qed.

Lemma dict_get_entry {V} (d : dict V) (k : string) (v : V) :
  NoDup (keys d) -> In (k, v) d -> dict_get k d = Some v.
Proof.
  induction d as [|[k' v'] d IH]; simpl; [tauto|].
  intros Hnd [E|Hin].
  - injection E as -> ->. now rewrite String.eqb_refl.
  - inversion Hnd as [|? ? Hnotin Hnd']; subst.
    destruct (String.eqb k' k) eqn:Ek; [|now apply IH].
    apply String.eqb_eq in Ek; subst k'. exfalso. apply Hnotin.
    change k with (fst (k, v)). now apply in_map.
Qed.

Section WrapperText.
Context {float : Type} `{PyFloat float}.
Variable instances : Instances float.

Lemma text_of_emit (s : string) (L : locals) :
  text_of (emit s L) = text_of L ++ s.
Proof. apply join_empty_snoc. Qed.

Ltac flatten_text :=
  unfold input_declarations, output_declaration, connection, quoted_clause,
    tb, nl, q, str;
  repeat rewrite append_assoc; cbn [append String.eqb];
  repeat rewrite append_assoc; cbn [append String.eqb].

Lemma declare_input_text (block : string) (r : InstanceRecord float)
      (L : locals) :
  dict_get block (Overwrite instances) = Some r ->
  exists L',
    declare_input instances block L = Ok L' /\
    text_of L' = text_of L ++ input_declarations (block, r) /\
    (named L -> named L') /\
    (forall k, k = block \/ covered k L -> covered k L').
Proof.
  intros Hr. unfold declare_input, dict_item. rewrite Hr.
  unfold _make_var_name. cbn [rbind String.eqb Ascii.eqb Bool.eqb].
  cbn [set_signals_w set_signals_wo set_activate_w set_activate_wo
       input_signals_w_info input_activate_w_info emit].
  rewrite !dict_get_set_eq. cbn [rbind].
  eexists. split; [reflexivity|]. split; [|split].
  - rewrite !text_of_emit. unfold text_of at 1. cbn [model_code].
    fold (text_of L). rewrite append_assoc. f_equal.
    destruct (String.eqb (Description r) "") eqn:Ed; flatten_text;
      rewrite ?Ed; flatten_text.
    all: reflexivity.
  - intros [Hu Ha]. split; cbn; intros k v Hk;
      apply dict_get_set_cases in Hk as [[-> ->]|[_ Hk]]; auto.
  - unfold covered. cbn. intros k Hk. rewrite !dict_mem_set.
    destruct Hk as [->|[-> ->]]; rewrite ?String.eqb_refl, ?orb_true_r; auto.
Qed.

Lemma declare_inputs_text (es : dict (InstanceRecord float)) :
  (forall k r, In (k, r) es -> dict_get k (Overwrite instances) = Some r) ->
  forall L, exists L',
      rfold (declare_input instances) (keys es) L = Ok L' /\
      text_of L' = text_of L ++ join "" (map input_declarations es) /\
      (named L -> named L') /\
      (forall k, In k (keys es) \/ covered k L -> covered k L').
Proof.
  induction es as [|[k r] es IH]; intros Hes L; cbn [keys map fst rfold].
  - exists L. split; [reflexivity|]. split; [now rewrite append_empty_r|].
    split; [trivial|]. intros k [[]|Hk]; assumption.
  - destruct (@declare_input_text k r L) as (L1 & -> & Ht1 & Hn1 & Hc1);
      [apply Hes; now left|].
    destruct (IH (fun k' r' Hin => Hes k' r' (or_intror Hin)) L1)
      as (L2 & HL2 & Ht2 & Hn2 & Hc2).
    exists L2. cbn [rbind]. split; [exact HL2|]. split; [|split].
    + rewrite Ht2, Ht1, join_cons_empty. now rewrite !append_assoc.
    + auto.
    + intros x [[->|Hx]|Hx]; apply Hc2; auto.
Qed.

Lemma declare_output_text (i block : string) (r : InstanceRecord float)
      (L : locals) :
  dict_get block (instances_at i instances) = Some r ->
  exists L',
    declare_output instances i block L = Ok L' /\
    text_of L' = text_of L ++ output_declaration (block, r) /\
    input_signals_wo_info L' = input_signals_wo_info L /\
    input_activate_wo_info L' = input_activate_wo_info L.
Proof.
  intros Hr. unfold declare_output, dict_item. rewrite Hr.
  unfold _make_var_name. cbn [rbind String.eqb Ascii.eqb Bool.eqb].
  eexists. split; [reflexivity|]. split; [|split; reflexivity].
  rewrite text_of_emit. f_equal. flatten_text. reflexivity.
Qed.

Lemma declare_outputs_text (i : string) (es : dict (InstanceRecord float)) :
  (forall k r, In (k, r) es -> dict_get k (instances_at i instances) = Some r) ->
  forall L, exists L',
      rfold (declare_output instances i) (keys es) L = Ok L' /\
      text_of L' = text_of L ++ join "" (map output_declaration es) /\
      input_signals_wo_info L' = input_signals_wo_info L /\
      input_activate_wo_info L' = input_activate_wo_info L.
Proof.
  induction es as [|[k r] es IH]; intros Hes L; cbn [keys map fst rfold].
  - exists L. split; [reflexivity|]. split; [now rewrite append_empty_r|].
    split; reflexivity.
  - destruct (@declare_output_text i k r L) as (L1 & -> & Ht1 & Hu1 & Ha1);
      [apply Hes; now left|].
    destruct (IH (fun k' r' Hin => Hes k' r' (or_intror Hin)) L1)
      as (L2 & HL2 & Ht2 & Hu2 & Ha2).
    exists L2. cbn [rbind]. split; [exact HL2|]. split; [|split; congruence].
    rewrite Ht2, Ht1, join_cons_empty. now rewrite !append_assoc.
Qed.

Lemma connect_text (i : nat) (block : string) (L : locals) :
  named L -> covered block L ->
  exists L',
    connect instances (i, block) L = Ok L' /\
    text_of L' = text_of L ++ connection block
                 ++ (if Nat.eqb i (length (Overwrite instances) - 1)
                     then ") " ++ q ++ "Original model with overwrites" ++ q
                          ++ ";" ++ nl
                     else "," ++ nl) /\
    input_signals_wo_info L' = input_signals_wo_info L /\
    input_activate_wo_info L' = input_activate_wo_info L.
Proof.
  intros [Hnu Hna] [Hu Ha]. unfold connect, dict_item, dict_mem in *.
  destruct (dict_get block (input_signals_wo_info L)) as [u|] eqn:Eu;
    [|discriminate].
  destruct (dict_get block (input_activate_wo_info L)) as [a|] eqn:Ea;
    [|discriminate].
  apply Hnu in Eu. apply Hna in Ea. subst u a. cbn [rbind].
  destruct (Nat.eqb i _); eexists; (split; [reflexivity|]);
    (split; [|split; reflexivity]);
    rewrite !text_of_emit.
  all: rewrite append_assoc; f_equal; flatten_text; reflexivity.
Qed.

Lemma connects_text (ks : list string) :
  forall (a : nat) (L : locals),
    a + length ks = length (Overwrite instances) ->
    named L -> (forall k, In k ks -> covered k L) ->
    exists L',
      rfold (connect instances) (combine (seq a (length ks)) ks) L = Ok L' /\
      text_of L' = text_of L
                   ++ match ks with
                      | [] => ""
                      | _ :: _ =>
                          join ("," ++ nl) (map connection ks)
                          ++ ") " ++ q ++ "Original model with overwrites" ++ q
                          ++ ";" ++ nl
                      end.
Proof.
  induction ks as [|k ks IH]; intros a L Hlen Hn Hc.
  - exists L. split; [reflexivity|now rewrite append_empty_r].
  - cbn [length seq combine rfold].
    destruct (@connect_text a k L Hn) as (L1 & -> & Ht1 & Hu1 & Ha1);
      [apply Hc; now left|].
    cbn [rbind]. cbn [length] in Hlen.
    destruct (IH (S a) L1) as (L2 & HL2 & Ht2).
    + lia.
    + destruct Hn as [Hnu Hna]. split; [rewrite Hu1|rewrite Ha1]; assumption.
    + intros x Hx. unfold covered. rewrite Hu1, Ha1. apply Hc. now right.
    + exists L2. split; [exact HL2|]. rewrite Ht2, Ht1.
      destruct ks as [|k' ks].
      * replace (Nat.eqb a (length (Overwrite instances) - 1)) with true
          by (symmetry; apply Nat.eqb_eq; simpl in Hlen; lia).
        cbn [map]. unfold join at 1. cbn [String.concat].
        now rewrite append_empty_r, ?append_assoc.
      * replace (Nat.eqb a (length (Overwrite instances) - 1)) with false
          by (symmetry; apply Nat.eqb_neq; simpl in Hlen; lia).
        cbn [map]. rewrite join_cons2. now rewrite !append_assoc.
Qed.

End WrapperText.

(** The loops of [create_wrapper] emit [wrapper_text]. *)
Lemma create_wrapper_is_text {float : Type} `{PyFloat float}
        (model_path : string) (instances : Instances float) :
  NoDup (keys (Overwrite instances)) ->
  NoDup (keys (Read instances)) ->
  Overwrite instances <> [] \/ Read instances <> [] ->
  create_wrapper model_path instances
  = ([], Ok (Some (wrapper_text model_path instances))).
Proof.
  intros Hno Hnr Hne.
  assert (Hlen : Nat.eqb (length (Overwrite instances)
                          + length (Read instances)) 0 = false).
  { apply Nat.eqb_neq.
    destruct (Overwrite instances), (Read instances); simpl;
      try lia; destruct Hne; congruence. }
  unfold create_wrapper. rewrite Hlen. cbv zeta.
  match goal with
  | |- context [rfold (declare_input instances) _ ?L] => set (L0 := L)
  end.
  assert (Hn0 : named L0) by (split; intros k v Hk; discriminate).
  destruct (declare_inputs_text instances (Overwrite instances)
              (fun k r => dict_get_entry _ _ _ Hno) L0)
    as (L1 & -> & Ht1 & Hn1 & Hc1).
  cbn [rbind rfold instances_at String.eqb Ascii.eqb Bool.eqb].
  set (L1' := emit _ L1).
  destruct (declare_outputs_text instances "Read" (Read instances)
              (fun k r => dict_get_entry _ _ _ Hnr) L1')
    as (L2 & -> & Ht2 & Hu2 & Ha2).
  cbn [rbind].
  destruct (declare_outputs_text instances "Overwrite" (Overwrite instances)
              (fun k r => dict_get_entry _ _ _ Hno) L2)
    as (L3 & -> & Ht3 & Hu3 & Ha3).
  cbn [rbind].
  set (L3' := emit _ (emit _ L3)).
  assert (Hu : input_signals_wo_info L3' = input_signals_wo_info L1)
    by (subst L3' L1'; cbn [emit input_signals_wo_info] in *; congruence).
  assert (Ha : input_activate_wo_info L3' = input_activate_wo_info L1)
    by (subst L3' L1'; cbn [emit input_activate_wo_info] in *; congruence).
  assert (Ht : text_of L3'
               = "model wrapped " ++ q ++ "Wrapped model of " ++ model_path
                 ++ q ++ nl ++ tb ++ "// Input overwrite" ++ nl
                 ++ join "" (map input_declarations (Overwrite instances))
                 ++ tb ++ "// Out read" ++ nl
                 ++ join "" (map output_declaration (Read instances))
                 ++ join "" (map output_declaration (Overwrite instances))
                 ++ tb ++ "// Original model" ++ nl
                 ++ tb ++ model_path ++ " mod(" ++ nl).
  { subst L3'. rewrite !text_of_emit, Ht3, Ht2. subst L1'.
    rewrite text_of_emit, Ht1. subst L0. unfold text_of at 1.
    cbn [model_code join String.concat].
    unfold tb, nl, q, str. repeat rewrite append_assoc. cbn [append].
    reflexivity. }
  destruct (Overwrite instances) as [|e es] eqn:Eo.
  - cbn [length Nat.eqb rbind]. do 3 f_equal.
    fold (text_of (emit ("end " ++ "wrapped" ++ ";" ++ nl)
                        (emit (") " ++ q ++ "Original model without overwrites"
                               ++ q ++ ";" ++ nl) L3'))).
    rewrite !text_of_emit, Ht. unfold wrapper_text. rewrite Eo.
    cbn [map keys join String.concat].
    unfold tb, nl, q, str. repeat rewrite append_assoc. cbn [append].
    reflexivity.
  - rewrite <- Eo in *.
    replace (Nat.eqb (length (Overwrite instances)) 0) with false
      by (rewrite Eo; reflexivity).
    unfold enumerate.
    destruct (@connects_text float instances (keys (Overwrite instances))
                0 L3') as (L4 & HL4 & Ht4).
    + unfold keys. now rewrite length_map.
    + destruct (Hn1 Hn0) as [Hnu Hna].
      split; [rewrite Hu|rewrite Ha]; assumption.
    + intros k Hk. unfold covered. rewrite Hu, Ha. apply Hc1. now left.
    + rewrite HL4. cbn [rbind]. do 3 f_equal.
      fold (text_of (emit ("end " ++ "wrapped" ++ ";" ++ nl) L4)).
      rewrite text_of_emit, Ht4, Ht. unfold wrapper_text.
      rewrite Eo. cbn [keys map].
      unfold tb, nl, q, str. repeat rewrite append_assoc. cbn [append].
      reflexivity.
Qed.

(** X17.  For maps with distinct keys that are not both empty,
    [create_wrapper] returns, without warning, the text [wrapper_text]:
    the header; for each Overwrite entry, in map order, its input and its
    activation declaration; the Out-read comment; one output declaration
    for each Read entry, then for each Overwrite entry; the instantiation
    of the model as [mod]; the connection clauses of the Overwrite entries
    separated by a comma and a newline; the closing comment, which says
    with overwrites exactly when there is an Overwrite entry; and the end
    line. *)
Theorem create_wrapper_closed_form {float : Type} `{PyFloat float}
        (model_path : string) (instances : Instances float) :
  NoDup (keys (Overwrite instances)) ->
  NoDup (keys (Read instances)) ->
  Overwrite instances <> [] \/ Read instances <> [] ->
  create_wrapper model_path instances
  = ([], Ok (Some (wrapper_text model_path instances))).
Proof. intros Hno Hnr Hne. now apply create_wrapper_is_text. Qed.

Lemma create_wrapper_closed_form_witness :
  @create_wrapper string DecFloat.ops "Plant" Samples.plant_instances
  = ([], Ok (Some (@wrapper_text string DecFloat.ops "Plant"
                     Samples.plant_instances))).
Proof.
  apply (@create_wrapper_closed_form string DecFloat.ops "Plant"
           Samples.plant_instances).
  - repeat constructor. simpl. tauto.
  - repeat constructor. simpl. tauto.
  - left. discriminate.
Defined.

Lemma dict_set_NoDup {V} (k : string) (v : V) (d : dict V) :
  NoDup (keys d) -> NoDup (keys (dict_set k v d)).
Proof.
  intros Hnd. rewrite keys_dict_set. destruct (dict_mem k d) eqn:E; [exact Hnd|].
  apply NoDup_app; [exact Hnd|repeat constructor; intros []|].
  intros x Hx [<-|[]]. apply dict_mem_keys in Hx. congruence.
Qed.

Section LoopDistinct.
Context {float : Type} `{PyFloat float}.
Variables (depth : nat) (tree : Element).

Lemma loop_distinct (l : list Element) :
  forall (st st' : Instances float * Signals),
    for_each (parse_var depth tree) l st = (st', Ok tt) ->
    NoDup (keys (Read (fst st))) /\ NoDup (keys (Overwrite (fst st))) ->
    NoDup (keys (Read (fst st'))) /\ NoDup (keys (Overwrite (fst st'))).
Proof.
  induction l as [|a l IH]; intros st st' Hrun Hnd.
  - now injection Hrun as <-.
  - apply for_each_cons_ok in Hrun as (st1 & Ha & Hl).
    apply (IH _ _ Hl). destruct Hnd as [Hr Ho].
    destruct (parse_var_ok _ _ _ _ Ha) as (name & _ & Hcase).
    destruct Hcase
      as [(_ & r & _ & ->)|[(_ & r & _ & ->)|[(_ & -> & _)|(_ & _ & _ & ->)]]];
      simpl; auto using dict_set_NoDup.
Qed.

End LoopDistinct.

(** X18.  Parsing, then synthesis: when [parse_XML] returns and the
    document has a variable element whose name contains [boptestRead] or
    [boptestOverwrite], [create_wrapper] on the returned maps gives, without
    warning, the text [wrapper_text] of these maps. *)
Theorem parse_then_wrap {float : Type} `{PyFloat float} (depth : nat)
        (tree : Element) (instances : Instances float) (signals : Signals)
        (model_path k : string) :
  parse_XML depth tree = Ok (instances, signals) ->
  from_variable tree read_marked k \/ from_variable tree overwrite_marked k ->
  create_wrapper model_path instances
  = ([], Ok (Some (wrapper_text model_path instances))).
Proof.
  intros Hrun Hk. apply parse_XML_ok_state in Hrun.
  pose proof Hrun as Hkeys. apply loop_keys in Hkeys as [Hr Ho].
  simpl in Hr, Ho.
  apply loop_distinct in Hrun as [Hnr Hno];
    [|split; constructor].
  simpl in Hnr, Hno. apply create_wrapper_is_text; try assumption.
  unfold from_variable in Hk. destruct Hk as [Hk|Hk].
  - right. intros E. assert (Hin : In k (keys (Read instances)))
      by (apply Hr; now right).
    rewrite E in Hin. contradiction.
  - left. intros E. assert (Hin : In k (keys (Overwrite instances)))
      by (apply Ho; now right).
    rewrite E in Hin. contradiction.
Qed.

Lemma parse_then_wrap_witness :
  @create_wrapper string DecFloat.ops "Plant" Samples.plant_instances
  = ([], Ok (Some (@wrapper_text string DecFloat.ops "Plant"
                     Samples.plant_instances))).
Proof.
  apply (@parse_then_wrap string DecFloat.ops 3 Samples.plant
           Samples.plant_instances Samples.plant_signals "Plant" "sensor.T").
  - vm_compute. reflexivity.
  - left. exists (Samples.variable "sensor.T.boptestRead" []),
      "sensor.T.boptestRead".
    split; [vm_compute; do 3 right; left; reflexivity|].
    split; [reflexivity|].
    split; [apply contains_occurs; vm_compute; reflexivity
           |vm_compute; reflexivity].
Defined.

(** X21.  An alias whose bindExpression string is empty is looked up as
    the name of the first element without a name attribute: when the
    document root has neither a name attribute nor a bindExpression child,
    the resolution ends there in AttributeError (not StopIteration), for
    every recursion depth of at least two. *)
Theorem empty_alias_hits_root (tree node : Element) (var : string) :
  get "name" tree = None ->
  find_child "bindExpression" tree = None ->
  first_named tree var = Ok node ->
  attrib_string (find_child "bindExpression" node) = Ok "" ->
  forall depth, 2 <= depth ->
                _get_final_value depth tree var = Raise AttributeError.
Proof.
  intros Hroot Hbind Hn Hs [|[|depth]] Hd; try lia.
  assert (Hfirst : first_named tree "" = Ok tree).
  { unfold first_named. destruct tree as [t a cs]. cbn [iter find].
    unfold name_or_empty. unfold get in Hroot. now rewrite Hroot. }
  cbn [_get_final_value]. rewrite Hn. cbn [rbind]. rewrite Hs. cbn [rbind].
  cbn [contains startswith str]. cbn [orb]. rewrite Hfirst. cbn [rbind].
  now rewrite Hbind.
Qed.

Lemma empty_alias_hits_root_witness :
  _get_final_value 7 Samples.empty_alias "e.zone" = Raise AttributeError.
Proof.
  apply (@empty_alias_hits_root Samples.empty_alias
           (Samples.variable "e.zone" [Samples.bindExpression ""]) "e.zone");
    try reflexivity. lia.
Defined.

(* ================================================================= *)
(** ** The order of the map keys *)

Lemma existsb_keys {V} (k : string) (d : dict V) :
  existsb (String.eqb k) (keys d) = dict_mem k d.
Proof.
  unfold dict_mem. induction d as [|[k' v'] d IH]; simpl; [reflexivity|].
  rewrite String.eqb_sym. destruct (String.eqb k' k); simpl; [reflexivity|].
  exact IH.
Qed.

Lemma keys_dict_set_add {V} (k : string) (v : V) (d : dict V) :
  keys (dict_set k v d) = add_key (keys d) k.
Proof. unfold add_key. now rewrite keys_dict_set, existsb_keys. Qed.

Section KeyOrder.
Context {float : Type} `{PyFloat float}.
Variables (depth : nat) (tree : Element).

Lemma parse_var_key_order (a : Element) (st st1 : Instances float * Signals) :
  parse_var depth tree a st = (st1, Ok tt) ->
  keys (Read (fst st1))
  = fold_left add_key (marked_basenames is_read [a]) (keys (Read (fst st))) /\
  keys (Overwrite (fst st1))
  = fold_left add_key (marked_basenames is_overwrite [a])
              (keys (Overwrite (fst st))).
Proof.
  intros Hrun.
  destruct (parse_var_ok _ _ _ _ Hrun) as (name & Hname & Hcase).
  unfold marked_basenames, is_read, is_overwrite. cbn [flat_map].
  rewrite Hname, !app_nil_r.
  unfold read_marked, overwrite_marked, kpi_marked in Hcase.
  destruct Hcase
    as [(Hr & r & _ & ->)|[([Hr Ho] & r & _ & ->)|[((Hr & Ho & _) & -> & _)
                                                 |(Hr & Ho & _ & ->)]]].
  - apply contains_occurs in Hr. rewrite Hr. simpl.
    now rewrite keys_dict_set_add.
  - apply contains_false_iff in Hr. apply contains_occurs in Ho.
    rewrite Hr, Ho. simpl. now rewrite keys_dict_set_add.
  - apply contains_false_iff in Hr, Ho. rewrite Hr, Ho. now split.
  - apply contains_false_iff in Hr, Ho. rewrite Hr, Ho. now split.
Qed.

Lemma marked_basenames_cons (test : string -> bool) (a : Element)
      (l : list Element) :
  marked_basenames test (a :: l)
  = (marked_basenames test [a] ++ marked_basenames test l)%list.
Proof. unfold marked_basenames. cbn [flat_map]. now rewrite app_nil_r. Qed.

Lemma loop_key_order (l : list Element) :
  forall st st',
    for_each (parse_var depth tree) l st = (st', Ok tt) ->
    keys (Read (fst st'))
    = fold_left add_key (marked_basenames is_read l) (keys (Read (fst st))) /\
    keys (Overwrite (fst st'))
    = fold_left add_key (marked_basenames is_overwrite l)
                (keys (Overwrite (fst st))).
Proof.
  induction l as [|a l IH]; intros st st' Hrun.
  - injection Hrun as <-. now split.
  - apply for_each_cons_ok in Hrun as (st1 & Ha & Hl).
    destruct (parse_var_key_order _ _ Ha) as [Hr1 Ho1].
    destruct (IH _ _ Hl) as [Hr Ho].
    rewrite (marked_basenames_cons is_read a l),
      (marked_basenames_cons is_overwrite a l), !fold_left_app, <- Hr1, <- Ho1.
    now split.
Qed.

End KeyOrder.

(** X22.  When [parse_XML] returns, the keys of the Read map stand in the
    order in which the document first shows each basename on a variable
    element whose name contains [boptestRead], and the keys of the
    Overwrite map in the order of the first [boptestOverwrite] variable
    (without [boptestRead]) of each basename: a basename met again keeps
    its place. *)
Theorem parse_XML_key_order {float : Type} `{PyFloat float} (depth : nat)
        (tree : Element) (instances : Instances float) (signals : Signals) :
  parse_XML depth tree = Ok (instances, signals) ->
  keys (Read instances)
  = first_seen (marked_basenames is_read (iter_tag "variable" tree)) /\
  keys (Overwrite instances)
  = first_seen (marked_basenames is_overwrite (iter_tag "variable" tree)).
Proof.
  intros Hrun. apply parse_XML_ok_state in Hrun.
  apply loop_key_order in Hrun. exact Hrun.
Qed.

Lemma parse_XML_key_order_witness :
  ["b"; "a"]
  = first_seen (marked_basenames is_read
                  (iter_tag "variable" Samples.interleaved)) /\
  ["w"]
  = first_seen (marked_basenames is_overwrite
                  (iter_tag "variable" Samples.interleaved)).
Proof.
  apply (@parse_XML_key_order string DecFloat.ops 1 Samples.interleaved
           Samples.interleaved_instances []).
  vm_compute. reflexivity.
Defined.

(* ================================================================= *)
(** ** Classification, turn by turn *)

(** C1 (as amended).  [parse_XML] takes the variable elements in document
    order; on each it tests the markers on the name attribute in fixed
    precedence.  For a variable element that has a name attribute: a name
    containing [boptestRead] is extracted as Read (also when it contains
    another marker); otherwise a name containing [boptestOverwrite] is
    extracted as Overwrite; otherwise a name containing [KPIs] is processed
    as a KPI; otherwise the variable is skipped and the maps are left as
    they are.  A Read extraction touches neither the Overwrite map nor the
    signal groups, an Overwrite extraction neither the Read map nor the
    signal groups, a KPI neither instance map.  A variable element without
    a name attribute is not skipped: its turn raises TypeError.  Whatever a
    turn raises, [parse_XML] raises; otherwise it goes on with the
    variables after it. *)
Theorem classification_precedence {float : Type} `{PyFloat float}
        (depth : nat) (tree var : Element) (st : Instances float * Signals) :
  let out := parse_var depth tree var st in
  (forall name,
      get "name" var = Some name ->
      (occurs_in "boptestRead" name ->
       out = on_fst (_process_readwrite tree name READ) st /\
       Overwrite (fst (fst out)) = Overwrite (fst st) /\
       snd (fst out) = snd st) /\
      (~ occurs_in "boptestRead" name -> occurs_in "boptestOverwrite" name ->
       out = on_fst (_process_readwrite tree name OVERWRITE) st /\
       Read (fst (fst out)) = Read (fst st) /\ snd (fst out) = snd st) /\
      (~ occurs_in "boptestRead" name -> ~ occurs_in "boptestOverwrite" name ->
       occurs_in "KPIs" name ->
       out = on_snd (_process_KPI depth tree var name) st /\
       fst (fst out) = fst st) /\
      (~ occurs_in "boptestRead" name -> ~ occurs_in "boptestOverwrite" name ->
       ~ occurs_in "KPIs" name ->
       out = (st, Ok tt))) /\
  (get "name" var = None -> out = (st, Raise TypeError)) /\
  (forall before after,
      iter_tag "variable" tree = (before ++ var :: after)%list ->
      for_each (parse_var depth tree) before (empty_instances, []) = (st, Ok tt) ->
      parse_XML_state depth tree
      = match out with
        | (st1, Ok _) => for_each (parse_var depth tree) after st1
        | (st1, Raise e) => (st1, Raise e)
        end /\
      (forall e, snd out = Raise e -> parse_XML depth tree = Raise e) /\
      (forall st1 u, out = (st1, Ok u) -> after = [] ->
                     parse_XML depth tree = Ok st1)) /\
  (iter_tag "variable" tree = [] ->
   parse_XML depth tree = Ok (empty_instances, [])).
Proof.
  cbv zeta. split; [|split; [|split]].
  - intros name Hname. unfold parse_var, flag_of. rewrite Hname.
    split; [|split; [|split]].
    + intros Hr. apply contains_occurs in Hr. rewrite Hr. simpl. unfold on_fst.
      pose proof (process_readwrite_confined tree name READ (fst st)) as [Hc _].
      destruct (_process_readwrite tree name READ (fst st)); simpl in *. auto.
    + intros Hr Ho. apply contains_false_iff in Hr. apply contains_occurs in Ho.
      rewrite Hr, Ho. simpl. unfold on_fst.
      pose proof (process_readwrite_confined tree name OVERWRITE (fst st))
        as [_ Hc].
      destruct (_process_readwrite tree name OVERWRITE (fst st)); simpl in *.
      repeat split; trivial. apply Hc. discriminate.
    + intros Hr Ho Hk. apply contains_false_iff in Hr, Ho.
      apply contains_occurs in Hk. rewrite Hr, Ho, Hk. simpl. unfold on_snd.
      destruct (_process_KPI depth tree var name (snd st)); simpl. auto.
    + intros Hr Ho Hk. apply contains_false_iff in Hr, Ho, Hk.
      now rewrite Hr, Ho, Hk.
  - apply parse_var_unnamed.
  - intros before after Hvars Hbefore.
    assert (Hstate : parse_XML_state depth tree
                     = match parse_var depth tree var st with
                       | (st1, Ok _) => for_each (parse_var depth tree) after st1
                       | (st1, Raise e) => (st1, Raise e)
                       end).
    { unfold parse_XML_state. rewrite Hvars, for_each_app, Hbefore.
      cbn [for_each]. unfold mbind.
      destruct (parse_var depth tree var st) as [st1 [[]|e]]; reflexivity. }
    split; [exact Hstate|]. split.
    + intros e He. unfold parse_XML. rewrite Hstate.
      destruct (parse_var depth tree var st) as [st1 [u|e']]; simpl in He;
        [discriminate|]. now injection He as ->.
    + intros st1 u Hout ->. unfold parse_XML. rewrite Hstate, Hout.
      reflexivity.
  - intros Hnone. unfold parse_XML, parse_XML_state. now rewrite Hnone.
Qed.

Lemma classification_precedence_witness :
  @parse_var string DecFloat.ops 3 Samples.plant
    (Samples.variable "sensor.T.KPIs.boptestOverwrite.boptestRead" [])
    (empty_instances, [])
  = on_fst (@_process_readwrite string DecFloat.ops Samples.plant
              "sensor.T.KPIs.boptestOverwrite.boptestRead" READ)
      (empty_instances, []) /\
  @parse_var string DecFloat.ops 3 Samples.plant
    (Samples.variable "sensor.T.y" []) (empty_instances, [])
  = ((empty_instances, []), Ok tt) /\
  @parse_XML string DecFloat.ops 3 Samples.failing = Raise StopIteration.
Proof.
  pose (st := (empty_instances, []) : Instances string * Signals).
  split; [|split].
  - destruct (@classification_precedence string DecFloat.ops 3 Samples.plant
                (Samples.variable "sensor.T.KPIs.boptestOverwrite.boptestRead" [])
                st) as (Hnamed & _).
    destruct (Hnamed "sensor.T.KPIs.boptestOverwrite.boptestRead" eq_refl)
      as (Hread & _).
    apply Hread. apply contains_occurs. vm_compute. reflexivity.
  - destruct (@classification_precedence string DecFloat.ops 3 Samples.plant
                (Samples.variable "sensor.T.y" []) st) as (Hnamed & _).
    destruct (Hnamed "sensor.T.y" eq_refl) as (_ & _ & _ & Hskip).
    apply Hskip; apply contains_false_iff; vm_compute; reflexivity.
  - destruct (@classification_precedence string DecFloat.ops 3 Samples.failing
                (Samples.variable "p.boptestOverwrite" [])
                Samples.sensor_read) as (_ & _ & Hloop & _).
    destruct (Hloop Samples.read_block
                [Samples.variable "zone1.KPIs"
                   [Samples.bindExpression (Samples.kpi_type "PowerDemand")]])
      as (_ & Hraise & _).
    + vm_compute. reflexivity.
    + vm_compute. reflexivity.
    + apply Hraise. vm_compute. reflexivity.
Defined.

(** C1, counterexample.  The fourth variable element of the document has
    no name attribute, hence no marker: its turn of the loop does not skip
    it but raises TypeError, and so does [parse_XML]; the KPI variable after
    it is never processed. *)
Lemma classification_unnamed_variable :
  In (Elem "variable" [("id", "7")] []) (iter Samples.unnamed) /\
  tag (Elem "variable" [("id", "7")] []) = "variable" /\
  get "name" (Elem "variable" [("id", "7")] []) = None /\
  @parse_var string DecFloat.ops 3 Samples.unnamed
    (Elem "variable" [("id", "7")] []) Samples.sensor_read
  = (Samples.sensor_read, Raise TypeError) /\
  @parse_var string DecFloat.ops 3 Samples.unnamed
    (Elem "variable" [("id", "7")] []) Samples.sensor_read
  <> (Samples.sensor_read, Ok tt) /\
  @parse_XML string DecFloat.ops 3 Samples.unnamed = Raise TypeError.
Proof.
  split.
  - apply (iter_tag_In "variable"). vm_compute. do 3 right. left. reflexivity.
  - split; [reflexivity|]. split; [reflexivity|].
    split; [reflexivity|]. split; [discriminate|].
    vm_compute. reflexivity.
Qed.

(* ================================================================= *)
(** ** The script *)

Lemma attempt_all_ok (io_ok : event -> bool) (actions : list event)
      (k : list event * outcome) :
  (forall a, In a actions -> io_ok a = true) ->
  attempt io_ok actions k = ((actions ++ fst k)%list, snd k).
Proof.
  induction actions as [|a l IH]; intros Hok; simpl.
  - now destruct k.
  - rewrite (Hok a) by now left.
    rewrite IH by (intros x Hx; apply Hok; now right). reflexivity.
Qed.

Lemma attempt_first_failure (io_ok : event -> bool) (pre post : list event)
      (a : event) (k : list event * outcome) :
  (forall x, In x pre -> io_ok x = true) ->
  io_ok a = false ->
  attempt io_ok (pre ++ a :: post) k = (pre, IOFailed a).
Proof.
  induction pre as [|x pre IH]; intros Hok Ha; simpl.
  - now rewrite Ha.
  - rewrite (Hok x) by now left.
    rewrite IH; [reflexivity| |assumption].
    intros y Hy. apply Hok. now right.
Qed.

Lemma attempt_app (io_ok : event -> bool) (l1 l2 : list event)
      (k : list event * outcome) :
  attempt io_ok (l1 ++ l2) k = attempt io_ok l1 (attempt io_ok l2 k).
Proof.
  induction l1 as [|a l1 IH]; simpl; [reflexivity|].
  destruct (io_ok a); [now rewrite IH|reflexivity].
Qed.

Lemma unmarked_wrapper_none {float : Type} `{PyFloat float} (depth : nat)
      (tree : Element) (instances : Instances float) (signals : Signals) :
  parse_XML depth tree = Ok (instances, signals) ->
  (forall k, ~ from_variable tree read_marked k /\
             ~ from_variable tree overwrite_marked k) ->
  forall model_path,
    create_wrapper model_path instances = ([no_blocks_warning], Ok None).
Proof.
  intros Hrun Hno model_path.
  apply parse_XML_ok_state in Hrun. apply loop_keys in Hrun as [Hr Ho].
  simpl in Hr, Ho. unfold from_variable in Hno.
  assert (Er : Read instances = []).
  { apply keys_nil. destruct (keys (Read instances)) as [|k ks] eqn:E;
      [reflexivity|].
    exfalso. destruct (proj1 (Hr k)) as [[]|Hk]; [now left|].
    now apply (proj1 (Hno k)). }
  assert (Eo : Overwrite instances = []).
  { apply keys_nil. destruct (keys (Overwrite instances)) as [|k ks] eqn:E;
      [reflexivity|].
    exfalso. destruct (proj1 (Ho k)) as [[]|Hk]; [now left|].
    now apply (proj2 (Hno k)). }
  unfold create_wrapper. now rewrite Er, Eo.
Qed.

Lemma marked_wrapper_text {float : Type} `{PyFloat float} (depth : nat)
      (tree : Element) (instances : Instances float) (signals : Signals)
      (k : string) :
  parse_XML depth tree = Ok (instances, signals) ->
  from_variable tree read_marked k \/ from_variable tree overwrite_marked k ->
  forall model_path,
    create_wrapper model_path instances
    = ([], Ok (Some (wrapper_text model_path instances))).
Proof.
  intros Hrun Hk model_path. apply parse_XML_ok_state in Hrun.
  pose proof Hrun as Hkeys. apply loop_keys in Hkeys as [Hr Ho].
  simpl in Hr, Ho.
  apply loop_distinct in Hrun as [Hnr Hno]; [|split; constructor].
  simpl in Hnr, Hno. apply create_wrapper_is_text; try assumption.
  unfold from_variable in Hk. destruct Hk as [Hk|Hk].
  - right. intros E. assert (Hin : In k (keys (Read instances)))
      by (apply Hr; now right).
    rewrite E in Hin. contradiction.
  - left. intros E. assert (Hin : In k (keys (Overwrite instances)))
      by (apply Ho; now right).
    rewrite E in Hin. contradiction.
Qed.

(** X19.  When the input file is read, the document parses and none of
    its variable elements has a name containing [boptestRead] or
    [boptestOverwrite], the script warns once and then, given an output
    path: if the system lets that file be
    opened, it is opened (emptied) and the script raises TypeError from
    writing None; if not, the script ends with the OSError of that open;
    either way the signal groups are never written, even with a JSON path.
    Without an output path it prints the text [None] and then opens and
    writes the JSON file when asked, ending at the first of these calls
    that the system refuses. *)
Theorem main_without_blocks {float : Type} `{PyFloat float}
        (read : string -> option Element) (io_ok : event -> bool)
        (depth : nat) (args : Args) (tree : Element)
        (instances : Instances float) (signals : Signals) :
  read (inputfile args) = Some tree ->
  parse_XML depth tree = Ok (instances, signals) ->
  (forall k, ~ from_variable tree read_marked k /\
             ~ from_variable tree overwrite_marked k) ->
  (forall path,
      output args = Some path ->
      main read io_ok depth args
      = if io_ok (FileOpen path)
        then ([Warn no_blocks_warning; FileOpen path], Raised TypeError)
        else ([Warn no_blocks_warning], IOFailed (FileOpen path))) /\
  (output args = None ->
   let actions :=
     Stdout "None"
     :: match json args with
        | None => []
        | Some path => [FileOpen path; JsonDump path signals]
        end in
   ((forall a, In a actions -> io_ok a = true) ->
    main read io_ok depth args = (Warn no_blocks_warning :: actions, Done)) /\
   (forall pre a post,
       actions = (pre ++ a :: post)%list ->
       (forall x, In x pre -> io_ok x = true) ->
       io_ok a = false ->
       main read io_ok depth args
       = (Warn no_blocks_warning :: pre, IOFailed a))).
Proof.
  intros Hread Hrun Hno.
  pose proof (unmarked_wrapper_none depth Hrun Hno) as Hw.
  unfold main. rewrite Hread, Hrun, Hw. split.
  - intros path ->. cbn [attempt]. destruct (io_ok (FileOpen path)); reflexivity.
  - intros ->. cbv zeta.
    assert (Hshape :
              attempt io_ok [Stdout "None"]
                match json args with
                | Some path =>
                    attempt io_ok [FileOpen path; JsonDump path signals]
                            ([], Done)
                | None => ([], Done)
                end
              = attempt io_ok
                  (Stdout "None"
                   :: match json args with
                      | None => []
                      | Some path => [FileOpen path; JsonDump path signals]
                      end) ([], Done))
      by (destruct (json args); reflexivity).
    rewrite Hshape. split.
    + intros Hok. rewrite attempt_all_ok by assumption.
      cbn [fst snd map app]. now rewrite app_nil_r.
    + intros pre a post Hsplit Hpre Ha. rewrite Hsplit.
      now rewrite attempt_first_failure.
Qed.

Lemma two_kpis_unmarked (k : string) :
  ~ from_variable Samples.two_kpis read_marked k /\
  ~ from_variable Samples.two_kpis overwrite_marked k.
Proof.
  split; intros (var & name & Hin & Hname & Hmark & _);
    vm_compute in Hin; destruct Hin as [<-|[<-|[<-|[]]]];
    injection Hname as <-;
    try destruct Hmark as [_ Hmark];
    apply contains_occurs in Hmark; vm_compute in Hmark; discriminate.
Qed.

Lemma main_without_blocks_witness :
  @main string DecFloat.ops (Samples.only_file Samples.two_kpis)
    Samples.all_ok 1
    {| inputfile := "dae.xml"; output := Some "wrapped.mo";
       model := Some "Plant";
       json := Some "kpis.json" |}
  = ([Warn no_blocks_warning; FileOpen "wrapped.mo"], Raised TypeError) /\
  @main string DecFloat.ops (Samples.only_file Samples.two_kpis)
    Samples.no_directory 1
    {| inputfile := "dae.xml"; output := Some "nodir/wrapped.mo";
       model := Some "Plant";
       json := Some "kpis.json" |}
  = ([Warn no_blocks_warning], IOFailed (FileOpen "nodir/wrapped.mo")).
Proof.
  split.
  - destruct (@main_without_blocks string DecFloat.ops
                (Samples.only_file Samples.two_kpis) Samples.all_ok 1
                {| inputfile := "dae.xml"; output := Some "wrapped.mo";
       model := Some "Plant";
                   json := Some "kpis.json" |}
                Samples.two_kpis empty_instances
                [("PowerDemand", ["x_y"; "y_y"])]) as [Hfile _].
    + reflexivity.
    + vm_compute. reflexivity.
    + apply two_kpis_unmarked.
    + apply (Hfile "wrapped.mo"). reflexivity.
  - destruct (@main_without_blocks string DecFloat.ops
                (Samples.only_file Samples.two_kpis) Samples.no_directory 1
                {| inputfile := "dae.xml"; output := Some "nodir/wrapped.mo";
       model := Some "Plant";
                   json := Some "kpis.json" |}
                Samples.two_kpis empty_instances
                [("PowerDemand", ["x_y"; "y_y"])]) as [Hfile _].
    + reflexivity.
    + vm_compute. reflexivity.
    + apply two_kpis_unmarked.
    + apply (Hfile "nodir/wrapped.mo"). reflexivity.
Defined.

(** X20.  When the input file is read, the document parses and has a
    variable element whose name contains [boptestRead] or
    [boptestOverwrite], the script issues no
    warning and attempts, in order: opening the output file and writing to
    it the text [wrapper_text] of the parsed maps for the model name given
    (the text [None] without the option), or printing that text when no
    output path is given; then, with a JSON path, opening that file and
    dumping the signal groups.  When the system lets every one of these
    calls succeed the script ends normally after them; otherwise it ends
    with the OSError of the first call refused, after the calls before it
    and without any call after it. *)
Theorem main_with_blocks {float : Type} `{PyFloat float}
        (read : string -> option Element) (io_ok : event -> bool)
        (depth : nat) (args : Args) (tree : Element)
        (instances : Instances float) (signals : Signals) (k : string) :
  read (inputfile args) = Some tree ->
  parse_XML depth tree = Ok (instances, signals) ->
  from_variable tree read_marked k \/ from_variable tree overwrite_marked k ->
  let text := wrapper_text (match model args with
                            | Some m => m
                            | None => "None"
                            end) instances in
  let actions :=
    (match output args with
     | Some path => [FileOpen path; FileWrite path text]
     | None => [Stdout text]
     end
     ++ match json args with
        | Some path => [FileOpen path; JsonDump path signals]
        | None => []
        end)%list in
  ((forall a, In a actions -> io_ok a = true) ->
   main read io_ok depth args = (actions, Done)) /\
  (forall pre a post,
      actions = (pre ++ a :: post)%list ->
      (forall x, In x pre -> io_ok x = true) ->
      io_ok a = false ->
      main read io_ok depth args = (pre, IOFailed a)).
Proof.
  intros Hread Hrun Hk. cbv zeta.
  pose proof (marked_wrapper_text depth Hrun Hk) as Hw.
  unfold main. rewrite Hread, Hrun, Hw.
  set (text := wrapper_text _ instances).
  assert (Hshape :
            match output args with
            | Some path =>
                attempt io_ok [FileOpen path; FileWrite path text]
                  match json args with
                  | Some path0 =>
                      attempt io_ok [FileOpen path0; JsonDump path0 signals]
                              ([], Done)
                  | None => ([], Done)
                  end
            | None =>
                attempt io_ok [Stdout text]
                  match json args with
                  | Some path0 =>
                      attempt io_ok [FileOpen path0; JsonDump path0 signals]
                              ([], Done)
                  | None => ([], Done)
                  end
            end
            = attempt io_ok
                (match output args with
                 | Some path => [FileOpen path; FileWrite path text]
                 | None => [Stdout text]
                 end
                 ++ match json args with
                    | Some path => [FileOpen path; JsonDump path signals]
                    | None => []
                    end)%list ([], Done)).
  { rewrite attempt_app. destruct (output args), (json args); reflexivity. }
  rewrite Hshape. split.
  - intros Hok. rewrite attempt_all_ok by assumption.
    cbn [fst snd map app]. now rewrite app_nil_r.
  - intros pre a post Hsplit Hpre Ha. rewrite Hsplit.
    now rewrite attempt_first_failure.
Qed.

Lemma interleaved_marked :
  from_variable Samples.interleaved read_marked "b" \/
  from_variable Samples.interleaved overwrite_marked "b".
Proof.
  left. exists (Samples.variable "b.boptestRead" []), "b.boptestRead".
  split; [vm_compute; left; reflexivity|]. split; [reflexivity|].
  split; [apply contains_occurs; vm_compute; reflexivity
         |vm_compute; reflexivity].
Qed.

Lemma main_with_blocks_witness :
  @main string DecFloat.ops (Samples.only_file Samples.interleaved)
    Samples.all_ok 1
    {| inputfile := "dae.xml"; output := None; model := None;
       json := Some "kpis.json" |}
  = ([Stdout (@wrapper_text string DecFloat.ops "None"
                Samples.interleaved_instances);
      FileOpen "kpis.json"; JsonDump "kpis.json" []], Done) /\
  @main string DecFloat.ops (Samples.only_file Samples.interleaved)
    Samples.no_directory 1
    {| inputfile := "dae.xml"; output := Some "nodir/wrapped.mo";
       model := None;
       json := Some "kpis.json" |}
  = ([], IOFailed (FileOpen "nodir/wrapped.mo")).
Proof.
  split.
  - destruct (@main_with_blocks string DecFloat.ops
                (Samples.only_file Samples.interleaved) Samples.all_ok 1
                {| inputfile := "dae.xml"; output := None; model := None;
       json := Some "kpis.json" |}
                Samples.interleaved Samples.interleaved_instances [] "b")
      as [Hall _].
    + reflexivity.
    + vm_compute. reflexivity.
    + exact interleaved_marked.
    + apply Hall. reflexivity.
  - destruct (@main_with_blocks string DecFloat.ops
                (Samples.only_file Samples.interleaved) Samples.no_directory 1
                {| inputfile := "dae.xml"; output := Some "nodir/wrapped.mo";
       model := None;
                   json := Some "kpis.json" |}
                Samples.interleaved Samples.interleaved_instances [] "b")
      as [_ Hfail].
    + reflexivity.
    + vm_compute. reflexivity.
    + exact interleaved_marked.
    + apply (Hfail [] (FileOpen "nodir/wrapped.mo")
                   [FileWrite "nodir/wrapped.mo"
                      (@wrapper_text string DecFloat.ops "None"
                         Samples.interleaved_instances);
                    FileOpen "kpis.json"; JsonDump "kpis.json" []]).
      * reflexivity.
      * intros x [].
      * reflexivity.
Defined.

(** X23.  When [ET.parse] fails on the input file, or [parse_XML] raises
    on its document, the script ends with that exception before any
    warning, print or file call: the output file and the JSON file are
    not opened, so what they held is left as it was. *)
Theorem main_early_failure {float : Type} `{PyFloat float}
        (read : string -> option Element) (io_ok : event -> bool)
        (depth : nat) (args : Args) :
  (read (inputfile args) = None ->
   main read io_ok depth args = ([], InputFailed (inputfile args))) /\
  (forall tree e,
      read (inputfile args) = Some tree ->
      parse_XML depth tree = Raise e ->
      main read io_ok depth args = ([], Raised e)).
Proof.
  unfold main. split.
  - now intros ->.
  - intros tree e -> Hraise. now rewrite Hraise.
Qed.

Lemma main_early_failure_witness :
  @main string DecFloat.ops (Samples.only_file Samples.failing)
    Samples.all_ok 3
    {| inputfile := "missing.xml"; output := Some "wrapped.mo";
       model := Some "Plant"; json := Some "kpis.json" |}
  = ([], InputFailed "missing.xml") /\
  @main string DecFloat.ops (Samples.only_file Samples.failing)
    Samples.all_ok 3
    {| inputfile := "dae.xml"; output := Some "wrapped.mo";
       model := Some "Plant"; json := Some "kpis.json" |}
  = ([], Raised StopIteration).
Proof.
  split.
  - apply (@main_early_failure string DecFloat.ops
             (Samples.only_file Samples.failing) Samples.all_ok 3
             {| inputfile := "missing.xml"; output := Some "wrapped.mo";
                model := Some "Plant"; json := Some "kpis.json" |}).
    reflexivity.
  - destruct (@main_early_failure string DecFloat.ops
                (Samples.only_file Samples.failing) Samples.all_ok 3
                {| inputfile := "dae.xml"; output := Some "wrapped.mo";
                   model := Some "Plant"; json := Some "kpis.json" |})
      as [_ Hparse].
    apply (Hparse Samples.failing StopIteration).
    + reflexivity.
    + vm_compute. reflexivity.
Defined.
